(** * Drive-time service areas notebook: a shallow embedding

    The notebook [constructing_drive_time_based_service_areas.ipynb] is a
    sequence of cells that call a geocoder, a service-area solver and a map
    widget, and that unwrap the solver's response dictionaries into
    [Feature] and [FeatureSet] objects.  Each code cell is embedded below as
    a function of the variables it reads; cells that touch the widget, the
    console, the remote services or a mutable dictionary run in a small
    state-and-exception monad over an event log and a heap. *)

From Stdlib Require Import ZArith QArith.
From stdpp Require Import base option list strings gmap.

Set Warnings "-register-all".
Local Open Scope string_scope.
Local Open Scope list_scope.
Local Open Scope Z_scope.

(** ** Python values and exceptions *)

Module Py.

(** The values the notebook handles are what [json] decoding produces:
    [None], booleans, integers, finite floats (kept as the rational they
    denote), strings, lists and dictionaries with string keys.  The kernel
    is Python 3.5, whose dictionaries have no specified iteration order. *)
Inductive value :=
| VNone
| VBool (b : bool)
| VInt (n : Z)
| VFloat (q : Q)
| VStr (s : string)
| VList (l : list value)
| VDict (d : gmap string value).

(** The built-in exceptions the cells can raise. *)
Inductive exn :=
| KeyError (key : value)
| IndexError
| TypeError.

Inductive res (A : Type) :=
| Ok (a : A)
| Raise (e : exn).
Global Arguments Ok {A} a.
Global Arguments Raise {A} e.

Definition bind {A B} (c : res A) (k : A -> res B) : res B :=
  match c with
  | Ok a => k a
  | Raise e => Raise e
  end.

Definition is_ok {A} (c : res A) : bool :=
  match c with Ok _ => true | Raise _ => false end.

(** [v[k]] for a string key [k]. Only a dictionary can be subscripted by a
    string; a list or a string wants an integer, the scalars are not
    subscriptable at all. *)
Definition getitem (v : value) (k : string) : res value :=
  match v with
  | VDict d =>
      match d !! k with
      | Some x => Ok x
      | None => Raise (KeyError (VStr k))
      end
  | _ => Raise TypeError
  end.

(** [l[j]] on a list, for an index [j >= 0]. *)
Definition list_getitem {A} (l : list A) (j : nat) : res A :=
  match l !! j with
  | Some x => Ok x
  | None => Raise IndexError
  end.

Definition chars (s : string) : list value :=
  (fun c => VStr (String c EmptyString)) <$> String.list_ascii_of_string s.

(** What a [for] statement or a comprehension iterates over. *)
Definition iter (v : value) : res (list value) :=
  match v with
  | VList l => Ok l
  | VStr s => Ok (chars s)
  | VDict d => Ok (VStr <$> (map_to_list d).*1)
  | _ => Raise TypeError
  end.

(** [v == s] for a string literal [s]. *)
Definition eq_str (v : value) (s : string) : bool :=
  match v with
  | VStr s' => String.eqb s' s
  | _ => false
  end.

(** Keys of a dictionary must be hashable; lists and dictionaries are not. *)
Definition hashable (v : value) : bool :=
  match v with
  | VList _ | VDict _ => false
  | _ => true
  end.

(** Numbers compare (and hash) by value across [bool], [int] and [float]. *)
Definition as_number (v : value) : option Q :=
  match v with
  | VBool b => Some (inject_Z (Z.b2z b))
  | VInt n => Some (inject_Z n)
  | VFloat q => Some q
  | _ => None
  end.

(** [d[k]] for a dictionary literal with integer keys. *)
Definition int_dict_getitem (d : list (Z * value)) (k : value) : res value :=
  if hashable k then
    match as_number k with
    | Some q =>
        match List.find (fun kv => Qeq_bool (inject_Z kv.1) q) d with
        | Some kv => Ok kv.2
        | None => Raise (KeyError k)
        end
    | None => Raise (KeyError k)
    end
  else Raise TypeError.

(** A [for] loop over a list, threading the variables the body assigns. *)
Fixpoint for_each {A S} (body : S -> A -> res S) (xs : list A) (s : S) : res S :=
  match xs with
  | [] => Ok s
  | x :: xs' =>
      match body s x with
      | Ok s' => for_each body xs' s'
      | Raise e => Raise e
      end
  end.

(** The list a comprehension [[t for t in xs if p t]] builds. *)
Fixpoint comprehension_if {A} (p : A -> res bool) (xs : list A) : res (list A) :=
  match xs with
  | [] => Ok []
  | x :: xs' =>
      match p x with
      | Ok b =>
          match comprehension_if p xs' with
          | Ok ys => Ok (if b then x :: ys else ys)
          | Raise e => Raise e
          end
      | Raise e => Raise e
      end
  end.

Fixpoint map_res {A B} (f : A -> res B) (xs : list A) : res (list B) :=
  match xs with
  | [] => Ok []
  | x :: xs' =>
      match f x with
      | Ok y =>
          match map_res f xs' with
          | Ok ys => Ok (y :: ys)
          | Raise e => Raise e
          end
      | Raise e => Raise e
      end
  end.

End Py.
Import Py.

Declare Scope res_scope.
Delimit Scope res_scope with R.
Notation "x <- c ;; k" := (Py.bind c (fun x => k))
  (at level 100, c at next level, right associativity) : res_scope.

Definition int_list (l : list Z) : value := VList (VInt <$> l).

(** ** The [arcgis.features] classes

    [Feature(geometry, attributes)] and
    [FeatureSet(features, geometry_type, spatial_reference)] come from the
    [arcgis] package; the notebook only builds them and reads the fields
    back, so they are records of their constructor arguments. *)

Record Feature := mkFeature {
  geometry : value;
  attributes : value
}.

Record FeatureSet := mkFeatureSet {
  features : list Feature;
  geometry_type : value;
  spatial_reference : value
}.

(** ** Reading a solver response back as a [FeatureSet] (cells 15 and 16) *)

(** The loop body of cell 15:
    [f1 = Feature(polygon_dict['geometry'], polygon_dict['attributes'])]
    then [poly_feat_list.append(f1)]. *)
Definition append_feature (poly_feat_list : list Feature) (polygon_dict : value)
  : res (list Feature) :=
  (g <- getitem polygon_dict "geometry";;
   a <- getitem polygon_dict "attributes";;
   let f1 := mkFeature g a in
   Ok (poly_feat_list ++ [f1]))%R.

(** Cell 15, a function of [result]; returns the final [poly_feat_list]. *)
Definition cell15 (result : value) : res (list Feature) :=
  (sa <- getitem result "saPolygons";;
   fs <- getitem sa "features";;
   polygon_dicts <- iter fs;;
   for_each append_feature polygon_dicts [])%R.

(** Cell 16, a function of [result] and [poly_feat_list]. *)
Definition cell16 (result : value) (poly_feat_list : list Feature) : res FeatureSet :=
  (sa <- getitem result "saPolygons";;
   gt <- getitem sa "geometryType";;
   sa' <- getitem result "saPolygons";;
   sr <- getitem sa' "spatialReference";;
   Ok (mkFeatureSet poly_feat_list gt sr))%R.

(** The two cells run one after the other: [service_area_fset]. *)
Definition single_solve_fset (result : value) : res FeatureSet :=
  (poly_feat_list <- cell15 result;;
   cell16 result poly_feat_list)%R.

(** ** The same unwrapping inside the time-of-day loop (second-to-last code cell) *)

(** One turn of [for result in sa_results]: a fresh [poly_feat_list], the
    inner loop, the [FeatureSet], and [SD_fset_list.append]. *)
Definition fset_list_body (SD_fset_list : list FeatureSet) (result : value)
  : res (list FeatureSet) :=
  (sa <- getitem result "saPolygons";;
   fs <- getitem sa "features";;
   polygon_dicts <- iter fs;;
   poly_feat_list <- for_each append_feature polygon_dicts [];;
   sa1 <- getitem result "saPolygons";;
   gt <- getitem sa1 "geometryType";;
   sa2 <- getitem result "saPolygons";;
   sr <- getitem sa2 "spatialReference";;
   let service_area_fset := mkFeatureSet poly_feat_list gt sr in
   Ok (SD_fset_list ++ [service_area_fset]))%R.

Definition cell_fset_list (sa_results : list value) : res (list FeatureSet) :=
  for_each fset_list_body sa_results [].

(** A response entry that is a polygon feature: a dictionary holding a
    geometry and attributes. *)
Definition polygon_feature (p : value) : Prop :=
  exists d g a, p = VDict d /\ d !! "geometry" = Some g /\ d !! "attributes" = Some a.

(** A response whose ['saPolygons'] entry carries the list [polys] of
    polygon features, geometry type [gt] and spatial reference [sr]. *)
Definition sa_response (result : value) (polys : list value) (gt sr : value) : Prop :=
  exists d sa,
    result = VDict d /\ d !! "saPolygons" = Some (VDict sa) /\
    sa !! "features" = Some (VList polys) /\
    sa !! "geometryType" = Some gt /\
    sa !! "spatialReference" = Some sr /\
    Forall polygon_feature polys.

(** ** The world of the notebook: a heap and an event log *)

Definition loc := nat.

Inductive map_id := Map1 | Map2.

Definition map_id_eqb (a b : map_id) : bool :=
  match a, b with
  | Map1, Map1 | Map2, Map2 => true
  | _, _ => false
  end.

(** What [draw] is given to show: a geometry dictionary or a [FeatureSet]. *)
Inductive shape :=
| ShapeGeometry (g : value)
| ShapeFeatureSet (fs : FeatureSet).

(** The arguments of one [solve_service_area] call; an argument the call
    leaves out is [None]. *)
Record sa_request := mkRequest {
  facilities : FeatureSet;
  default_breaks : list Z;
  travel_direction : string;
  travel_mode : option value;
  time_of_day : option value;
  time_of_day_is_utc : option bool
}.

(** Everything the notebook does to its collaborators, in program order.
    A [draw] with a symbol records the dictionary object it was handed (its
    location) and what that object held at the call. *)
Inductive event :=
| EvGeocode (address : string) (candidates : list value)
| EvTravelModes (catalog : value)
| EvSolveCall (req : sa_request)
| EvSolveReturn (response : value)
| EvDraw (m : map_id) (sh : shape)
         (symbol : option (loc * gmap string value))
         (popup : option (gmap string value))
| EvClear (m : map_id)
| EvPrint (line : value)
| EvSleep (seconds : Z).

(** Only a dictionary that is assigned into after being shared lives on the
    heap; the response data is never mutated and is kept by value. *)
Record world := mkWorld {
  heap : gmap loc (gmap string value);
  log : list event
}.

Definition M (A : Type) : Type := world -> res A * world.

Definition ret {A} (a : A) : M A := fun w => (Ok a, w).

Definition lift {A} (r : res A) : M A := fun w => (r, w).

Definition bindM {A B} (c : M A) (k : A -> M B) : M B :=
  fun w =>
    match c w with
    | (Ok a, w') => k a w'
    | (Raise e, w') => (Raise e, w')
    end.

Declare Scope M_scope.
Delimit Scope M_scope with M.
Notation "x <- c ;; k" := (bindM c (fun x => k))
  (at level 100, c at next level, right associativity) : M_scope.
Notation "c ;;; k" := (bindM c (fun _ => k))
  (at level 100, right associativity) : M_scope.

Definition emit (e : event) : M unit :=
  fun w => (Ok tt, mkWorld (heap w) (log w ++ [e])).

Fixpoint for_eachM {A S} (body : S -> A -> M S) (xs : list A) (s : S) : M S :=
  match xs with
  | [] => ret s
  | x :: xs' => (s' <- body s x;; for_eachM body xs' s')%M
  end.

(** A dictionary display [{...}] bound to a variable: a new object. *)
Definition alloc (d : gmap string value) : M loc :=
  fun w =>
    let l := fresh (dom (heap w)) in
    (Ok l, mkWorld (<[l := d]> (heap w)) (log w)).

Definition deref (h : gmap loc (gmap string value)) (l : loc) : gmap string value :=
  default ∅ (h !! l).

(** [obj[k] = v] on a heap dictionary. *)
Definition setitem (l : loc) (k : string) (v : value) : M unit :=
  fun w => (Ok tt, mkWorld (<[l := <[k := v]> (deref (heap w) l)]> (heap w)) (log w)).

(** *** The map widget and the console *)

Definition draw (m : map_id) (sh : shape) (symbol : option loc)
    (popup : option (gmap string value)) : M unit :=
  fun w => emit (EvDraw m sh ((fun l => (l, deref (heap w) l)) <$> symbol) popup) w.

Definition clear_graphics (m : map_id) : M unit := emit (EvClear m).

Definition print (v : value) : M unit := emit (EvPrint v).

Definition sleep (seconds : Z) : M unit := emit (EvSleep seconds).

(** The graphics a widget shows after a run of events. *)
Definition widget_step (m : map_id) (gs : list shape) (e : event) : list shape :=
  match e with
  | EvDraw m' sh _ _ => if map_id_eqb m m' then gs ++ [sh] else gs
  | EvClear m' => if map_id_eqb m m' then [] else gs
  | _ => gs
  end.

Definition graphics_of (m : map_id) (evs : list event) : list shape :=
  fold_left (widget_step m) evs [].

(** Every shape handed to [draw] on widget [m], cleared or not. *)
Definition draws_of (m : map_id) (evs : list event) : list shape :=
  flat_map (fun e =>
    match e with
    | EvDraw m' sh _ _ => if map_id_eqb m m' then [sh] else []
    | _ => []
    end) evs.

Definition solve_calls (evs : list event) : list sa_request :=
  flat_map (fun e => match e with EvSolveCall r => [r] | _ => [] end) evs.

(** ** The cells that talk to the outside *)

Section Notebook.

(** The remote services answer as they please; what they return may depend
    on everything that happened before. A call that fails outright (no
    network, bad credentials) halts the notebook; the cells below are the
    runs in which the services answer. [str_format v] is ["{}".format(v)],
    and [timestamp_ms h] is [datetime(2017, 6, 10, h).timestamp() * 1000]
    in the kernel's time zone. *)
Variable geocode_service : list event -> string -> list value.
Variable travel_mode_service : list event -> value.
Variable solver : list event -> sa_request -> value.
Variable str_format : value -> string.
Variable timestamp_ms : Z -> value.

Definition geocode (address : string) : M (list value) :=
  fun w =>
    let cands := geocode_service (log w) address in
    (Ok cands, mkWorld (heap w) (log w ++ [EvGeocode address cands])).

Definition retrieve_travel_modes : M value :=
  fun w =>
    let cat := travel_mode_service (log w) in
    (Ok cat, mkWorld (heap w) (log w ++ [EvTravelModes cat])).

(** A blocking round trip: the call is logged, then its response. *)
Definition solve_service_area (req : sa_request) : M value :=
  (emit (EvSolveCall req);;;
   fun w =>
     let response := solver (log w) req in
     (Ok response, mkWorld (heap w) (log w ++ [EvSolveReturn response])))%M.

(** Cell 6: [sd_geocode = geocode('San Diego Convention Center')[0]], then
    the cell's value [sd_geocode['location']]. Returns both. *)
Definition cell6 : M (value * value) :=
  (cands <- geocode "San Diego Convention Center";;
   sd_geocode <- lift (list_getitem cands 0);;
   shown <- lift (getitem sd_geocode "location");;
   ret (sd_geocode, shown))%M.

(** Cell 7: the facility as a one-point [FeatureSet]. *)
Definition cell7 (sd_geocode : value) : res FeatureSet :=
  (location <- getitem sd_geocode "location";;
   let f1 := mkFeature location VNone in
   Ok (mkFeatureSet [f1] (VStr "esriGeometryPoint")
         (VDict {[ "latestWkid" := VInt 4326 ]})))%R.

(** Cell 9: [map1.draw(fset)]. *)
Definition cell9 (fset : FeatureSet) : M unit :=
  draw Map1 (ShapeFeatureSet fset) None None.

(** Cell 10, second line:
    [[t for t in travel_modes['supportedTravelModes']
        if t['name'] == 'Driving Time'][0]]. *)
Definition truck_mode_of (travel_modes : value) : res value :=
  (modes <- getitem travel_modes "supportedTravelModes";;
   ts <- iter modes;;
   selected <- comprehension_if
     (fun t => (name <- getitem t "name";; Ok (eq_str name "Driving Time"))%R) ts;;
   list_getitem selected 0)%R.

Definition cell10 : M (value * value) :=
  (travel_modes <- retrieve_travel_modes;;
   truck_mode <- lift (truck_mode_of travel_modes);;
   ret (travel_modes, truck_mode))%M.

(** Cell 12: the single solve. *)
Definition cell12 (fset : FeatureSet) (truck_mode : value) : M value :=
  solve_service_area
    (mkRequest fset [5; 10; 15] "esriNATravelDirectionFromFacility"
       (Some truck_mode) None None).

(** Cell 17: the colour table and the symbol dictionary. The table is only
    read; the symbol is assigned into by cell 18, so it is a heap object. *)
Definition colors : list (Z * value) :=
  [ (5, int_list [0; 128; 0; 90]);
    (10, int_list [255; 255; 0; 90]);
    (15, int_list [255; 0; 0; 90]) ].

Definition fill_symbol_init : gmap string value :=
  <[ "type" := VStr "esriSFS" ]>
  (<[ "style" := VStr "esriSFSSolid" ]>
  (<[ "color" := int_list [115; 76; 0; 255] ]> ∅)).

Definition cell17 : M loc := alloc fill_symbol_init.

Definition popup_of (to_break : value) : gmap string value :=
  <[ "title" := VStr "Service area" ]>
  (<[ "content" := VStr (str_format to_break ++ " minutes") ]> ∅).

(** Cell 18, one turn of [for service_area in service_area_fset.features]. *)
Definition cell18_body (fill_symbol : loc) (_ : unit) (service_area : Feature) : M unit :=
  (to_break <- lift (getitem (attributes service_area) "ToBreak");;
   color <- lift (int_dict_getitem colors to_break);;
   setitem fill_symbol "color" color;;;
   to_break' <- lift (getitem (attributes service_area) "ToBreak");;
   let popup := popup_of to_break' in
   draw Map1 (ShapeGeometry (geometry service_area)) (Some fill_symbol) (Some popup))%M.

Definition cell18 (fill_symbol : loc) (service_area_fset : FeatureSet) : M unit :=
  for_eachM (cell18_body fill_symbol) (features service_area_fset) tt.

(** Cells 17 and 18 in sequence. *)
Definition render_service_area (service_area_fset : FeatureSet) : M loc :=
  (fill_symbol <- cell17;;
   cell18 fill_symbol service_area_fset;;;
   ret fill_symbol)%M.

(** Cell 19: the park. *)
Definition cell19 : M value :=
  (cands <- geocode "Balboa park, San Diego, CA";;
   balboa_park <- lift (list_getitem cands 0);;
   location <- lift (getitem balboa_park "location");;
   draw Map1 (ShapeGeometry location) None None;;;
   ret balboa_park)%M.

(** *** Service areas for different times of the day *)

Definition hours : list Z := [6; 10; 14; 18; 22].

Definition day_times : list value := timestamp_ms <$> hours.

Definition time_request (fset : FeatureSet) (daytime : value) : sa_request :=
  mkRequest fset [5; 10; 15] "esriNATravelDirectionFromFacility"
    None (Some daytime) (Some false).

(** One turn of [for daytime in times]. *)
Definition solve_times_body (fset : FeatureSet) (sa_results : list value)
    (daytime : value) : M (list value) :=
  (result <- solve_service_area (time_request fset daytime);;
   ret (sa_results ++ [result]))%M.

(** The solve loop, for the list [times] of samples. *)
Definition cell_solve_times (fset : FeatureSet) (times : list value) : M (list value) :=
  for_eachM (solve_times_body fset) times [].

(** *** The animation (last code cell) *)

Definition time_labels : list value :=
  [VStr "6 am"; VStr "10 am"; VStr "2 pm"; VStr "6 pm"; VStr "10 pm"].

(** One turn of [for fset in SD_fset_list]; the state is the counter [j]. *)
Definition animation_inner (times : list value) (j : nat) (fset : FeatureSet) : M nat :=
  (label <- lift (list_getitem times j);;
   print label;;;
   draw Map2 (ShapeFeatureSet fset) None None;;;
   let j := (j + 1)%nat in
   sleep 1;;;
   ret j)%M.

(** One turn of [for l in range(loop)]. *)
Definition animation_pass (times : list value) (SD_fset_list : list FeatureSet)
    (_ : unit) (l : nat) : M unit :=
  (clear_graphics Map2;;;
   let j := 0%nat in
   _ <- for_eachM (animation_inner times) SD_fset_list j;;
   ret tt)%M.

Definition cell_animation (SD_fset_list : list FeatureSet) : M unit :=
  (clear_graphics Map2;;;
   let times := time_labels in
   sleep 2;;;
   let loop := 3%nat in
   for_eachM (animation_pass times SD_fset_list) (seq 0 loop) tt)%M.

(** The three time-of-day cells in sequence, for a list of samples. *)
Definition time_of_day_workflow (fset : FeatureSet) (times : list value)
  : M (list FeatureSet) :=
  (sa_results <- cell_solve_times fset times;;
   SD_fset_list <- lift (cell_fset_list sa_results);;
   cell_animation SD_fset_list;;;
   ret SD_fset_list)%M.

End Notebook.

(** ** What the animation is expected to log *)

Definition frame_events (label : value) (fset : FeatureSet) : list event :=
  [EvPrint label; EvDraw Map2 (ShapeFeatureSet fset) None None; EvSleep 1].

Definition pass_events (SD_fset_list : list FeatureSet) : list event :=
  EvClear Map2 :: concat (zip_with frame_events time_labels SD_fset_list).

Definition animation_events (SD_fset_list : list FeatureSet) : list event :=
  [EvClear Map2; EvSleep 2] ++ concat (replicate 3 (pass_events SD_fset_list)).

(** The events of a solve loop that got [responses] for [times]. *)
Definition solve_events (fset : FeatureSet) (times responses : list value) : list event :=
  concat (zip_with
    (fun daytime response =>
       [EvSolveCall (time_request fset daytime); EvSolveReturn response])
    times responses).

(** ** Sample data *)

Definition sample_polygon (to_break : Z) : value :=
  VDict (<[ "geometry" := VDict (<[ "rings" := VList [] ]> ∅) ]>
        (<[ "attributes" :=
              VDict (<[ "FromBreak" := VInt (to_break - 5) ]>
                    (<[ "ToBreak" := VInt to_break ]> ∅)) ]> ∅)).

Definition sample_polygons : list value :=
  [sample_polygon 15; sample_polygon 10; sample_polygon 5].

Definition sample_sa_polygons : gmap string value :=
  <[ "geometryType" := VStr "esriGeometryPolygon" ]>
  (<[ "spatialReference" := VDict (<[ "wkid" := VInt 4326 ]> ∅) ]>
  (<[ "features" := VList sample_polygons ]>
  (<[ "fieldAliases" := VDict ∅ ]> ∅))).

Definition sample_response : value :=
  VDict (<[ "saPolygons" := VDict sample_sa_polygons ]>
        (<[ "messages" := VList [] ]> ∅)).

Definition sample_facilities : FeatureSet :=
  mkFeatureSet
    [mkFeature (VDict (<[ "x" := VInt (-117) ]> (<[ "y" := VInt 32 ]> ∅))) VNone]
    (VStr "esriGeometryPoint") (VDict (<[ "latestWkid" := VInt 4326 ]> ∅)).

Definition sample_area (to_break : value) : Feature :=
  mkFeature (VDict (<[ "rings" := VList [] ]> ∅))
    (VDict (<[ "ToBreak" := to_break ]> ∅)).

Definition sample_areas : FeatureSet :=
  mkFeatureSet [sample_area (VInt 15); sample_area (VInt 5)]
    (VStr "esriGeometryPolygon") (VDict (<[ "wkid" := VInt 4326 ]> ∅)).

Definition sample_solver (_ : list event) (_ : sa_request) : value := sample_response.

Definition sample_format (v : value) : string :=
  match v with
  | VInt 5 => "5"
  | VInt 10 => "10"
  | VInt 15 => "15"
  | _ => "?"
  end.

Definition sample_catalog : value :=
  VDict (<[ "supportedTravelModes" :=
    VList [ VDict (<[ "name" := VStr "Walking Time" ]> ∅);
            VDict (<[ "name" := VStr "Driving Time" ]> (<[ "id" := VInt 1 ]> ∅));
            VDict (<[ "name" := VStr "Driving Time" ]> (<[ "id" := VInt 2 ]> ∅)) ] ]> ∅).

Definition walking_catalog : value :=
  VDict (<[ "supportedTravelModes" :=
    VList [ VDict (<[ "name" := VStr "Walking Time" ]> ∅);
            VDict (<[ "name" := VStr "driving time" ]> ∅) ] ]> ∅).

Definition empty_world : world := mkWorld ∅ [].

(** ** Predicates the statements use *)

(** Feature [f] carries the geometry and attributes of response entry [p]. *)
Definition same_feature (p : value) (f : Feature) : Prop :=
  getitem p "geometry" = Ok (geometry f) /\ getitem p "attributes" = Ok (attributes f).

(** The catalog [travel_modes] lists the named mode descriptors [modes]. *)
Definition travel_catalog (travel_modes : value) (modes : list value) : Prop :=
  exists d,
    travel_modes = VDict d /\
    d !! "supportedTravelModes" = Some (VList modes) /\
    Forall (fun t => exists name, getitem t "name" = Ok name) modes.

Definition named (s : string) (t : value) : Prop :=
  getitem t "name" = Ok (VStr s).

Definition is_driving_time (t : value) : bool :=
  match getitem t "name" with
  | Ok name => eq_str name "Driving Time"
  | Raise _ => false
  end.

(** [v] is the number [n], as an [int], a [float] or a [bool]. *)
Definition to_break_is (n : Z) (v : value) : Prop :=
  exists q, as_number v = Some q /\ Qeq q (inject_Z n).

(** Cell 18's turn for [service_area] draws its geometry on [map1] with the
    symbol object [fill_symbol], whose ['color'] entry has just been set to
    [color], and with the popup made from [to_break]. *)
Definition drawn_with (str_format : value -> string) (fill_symbol : loc)
    (service_area : Feature) (to_break : value) (w : world) (color : value) : Prop :=
  let symbol := <[ "color" := color ]> (deref (heap w) fill_symbol) in
  cell18_body str_format fill_symbol tt service_area w
  = (Ok tt,
     mkWorld (<[ fill_symbol := symbol ]> (heap w))
       (log w ++ [EvDraw Map1 (ShapeGeometry (geometry service_area))
                    (Some (fill_symbol, symbol))
                    (Some (popup_of str_format to_break))])).

(** A draw on [map1] that was handed the heap object at [l], which then held
    the initial symbol but for its ['color'] entry. *)
Definition draws_with_symbol (l : loc) (e : event) : Prop :=
  exists sh color popup,
    e = EvDraw Map1 sh (Some (l, <[ "color" := color ]> fill_symbol_init)) popup.

(** The outcome the time-of-day cells are expected to have from world [w]:
    one solve per sample, one [FeatureSet] per response, all in the order of
    the samples, and each animation pass drawing them in that order. *)
Definition time_of_day_outcome (solver : list event -> sa_request -> value)
    (fset : FeatureSet) (times : list value) (w : world) : Prop :=
  exists responses SD_fset_list evs,
    time_of_day_workflow solver fset times w
      = (Ok SD_fset_list, mkWorld (heap w) (log w ++ evs)) /\
    length responses = length times /\
    length SD_fset_list = length times /\
    Forall2 (fun response fs => single_solve_fset response = Ok fs)
      responses SD_fset_list /\
    evs = solve_events fset times responses ++ animation_events SD_fset_list /\
    solve_calls evs = time_request fset <$> times /\
    draws_of Map2 evs = concat (replicate 3 (ShapeFeatureSet <$> SD_fset_list)).

(** The widget shows graphics of a single pass: the first [n] sets of the
    list, for some [n], and nothing else. *)
Definition shows_one_pass (SD_fset_list : list FeatureSet) (gs : list shape) : Prop :=
  exists n, gs = take n (ShapeFeatureSet <$> SD_fset_list).

(** Whatever [map2] showed before, after any non-empty initial part of the
    events [evs] it shows graphics of a single pass. *)
Definition one_pass_visible (SD_fset_list : list FeatureSet) (evs : list event) : Prop :=
  forall gs0 pre post,
    evs = pre ++ post -> pre <> [] ->
    shows_one_pass SD_fset_list (fold_left (widget_step Map2) pre gs0).

(** Section 7 of the spec tells a reported geocoding miss from the failure
    of an unchecked index: the candidate list "must be checked before
    indexing the first result; otherwise an out-of-range access occurs".
    A cell signals "no match" when it stops with a condition other than
    that out-of-range [IndexError]. *)
Definition signals_no_match {A} (outcome : res A) : Prop :=
  exists e, outcome = Raise e /\ e <> IndexError.

Definition no_geocoder (_ : list event) (_ : string) : list value := [].

(** ** The remaining cells and their compositions *)

(** Cell 11: [for t in travel_modes['supportedTravelModes']: print(t['name'])]. *)
Definition cell11_body (_ : unit) (t : value) : M unit :=
  (name <- lift (getitem t "name");;
   print name)%M.

Definition cell11 (travel_modes : value) : M unit :=
  (modes <- lift (getitem travel_modes "supportedTravelModes");;
   ts <- lift (iter modes);;
   for_eachM cell11_body ts tt)%M.

(** Cells 15 to 18 in sequence: unwrap [result], then render the set. *)
Definition cells_15_to_18 (str_format : value -> string) (result : value) : M loc :=
  (service_area_fset <- lift (single_solve_fset result);;
   render_service_area str_format service_area_fset)%M.

(** The seconds the notebook has spent in [time.sleep]. *)
Definition slept (evs : list event) : Z :=
  fold_right (fun e acc => match e with EvSleep s => s + acc | _ => acc end) 0 evs.

(** [tb] is one of the keys of the colour table. *)
Definition in_table (tb : value) : Prop :=
  to_break_is 5 tb \/ to_break_is 10 tb \/ to_break_is 15 tb.

(** A feature cell 18 can colour: it has a ['ToBreak'] found in the table. *)
Definition renderable (f : Feature) : Prop :=
  exists tb, getitem (attributes f) "ToBreak" = Ok tb /\ in_table tb.

(** [e] is the draw cell 18 makes for feature [f]: its geometry, the symbol
    object at [l] with the table colour of its ['ToBreak'], and the popup
    made from that ['ToBreak']. *)
Definition rendered (str_format : value -> string) (l : loc) (f : Feature)
    (e : event) : Prop :=
  exists tb color,
    getitem (attributes f) "ToBreak" = Ok tb /\
    int_dict_getitem colors tb = Ok color /\
    e = EvDraw Map1 (ShapeGeometry (geometry f))
          (Some (l, <[ "color" := color ]> fill_symbol_init))
          (Some (popup_of str_format tb)).

Definition has_name (t : value) : Prop :=
  exists name, getitem t "name" = Ok name.

(** A response entry whose attributes carry a ['ToBreak'] of the table. *)
Definition renderable_entry (p : value) : Prop :=
  exists a tb,
    getitem p "attributes" = Ok a /\ getitem a "ToBreak" = Ok tb /\ in_table tb.

(** The draw of the geometry of response entry [p]. *)
Definition shows_entry (p : value) (sh : shape) : Prop :=
  exists g, getitem p "geometry" = Ok g /\ sh = ShapeGeometry g.

(** *** More sample data *)



Definition sample_candidate : value :=
  VDict (<[ "location" := VDict (<[ "x" := VInt (-117) ]> (<[ "y" := VInt 32 ]> ∅)) ]>
        (<[ "score" := VInt 100 ]> ∅)).

Definition sample_geocoder (_ : list event) (_ : string) : list value :=
  [sample_candidate; VDict ∅].

Definition sample_timestamp (h : Z) : value := VInt (h * 3600000).

Definition bare_response : value :=
  VDict (<[ "saPolygons" :=
            VDict (<[ "geometryType" := VStr "esriGeometryPolygon" ]>
                  (<[ "spatialReference" := VDict (<[ "wkid" := VInt 4326 ]> ∅) ]>
                  (<[ "features" := VList sample_polygons ]> ∅))) ]> ∅).

Definition broken_polygon : value :=
  VDict (<[ "geometry" := VDict ∅ ]> ∅).

Definition broken_response : value :=
  VDict (<[ "saPolygons" :=
            VDict (<[ "features" :=
                      VList [sample_polygon 5; broken_polygon; sample_polygon 10] ]> ∅) ]> ∅).

Definition unnamed_catalog : value :=
  VDict (<[ "supportedTravelModes" :=
    VList [ VDict (<[ "name" := VStr "Driving Time" ]> ∅);
            VDict (<[ "id" := VInt 7 ]> ∅) ] ]> ∅).

Definition six_sets : list FeatureSet :=
  [sample_areas; sample_areas; sample_areas; sample_areas; sample_areas; sample_areas].

(** * Properties *)

(** ** Loops *)

Lemma for_each_app {A S} (body : S -> A -> res S) (xs ys : list A) (s : S) :
  for_each body (xs ++ ys) s
  = match for_each body xs s with
    | Ok s' => for_each body ys s'
    | Raise e => Raise e
    end.
Proof.
  revert s. induction xs as [|x xs IH]; intros s; simpl; [done|].
  destruct (body s x); [apply IH | done].
Qed.

Lemma for_eachM_app {A S} (body : S -> A -> M S) (xs ys : list A) (s : S) (w : world) :
  for_eachM body (xs ++ ys) s w
  = match for_eachM body xs s w with
    | (Ok s', w') => for_eachM body ys s' w'
    | (Raise e, w') => (Raise e, w')
    end.
Proof.
  revert s w. induction xs as [|x xs IH]; intros s w; simpl; [done|].
  unfold bindM. destruct (body s x w) as [[s'|e] w']; [apply IH | done].
Qed.

Lemma getitem_dict (d : gmap string value) (k : string) (v : value) :
  d !! k = Some v -> getitem (VDict d) k = Ok v.
Proof. intros H. simpl. by rewrite H. Qed.

(** ** The response is passed through *)

Lemma append_feature_polygon (acc : list Feature) (p : value) :
  polygon_feature p ->
  exists f, append_feature acc p = Ok (acc ++ [f]) /\ same_feature p f.
Proof.
  intros (d & g & a & -> & Hg & Ha).
  exists (mkFeature g a). unfold append_feature, same_feature.
  rewrite !(getitem_dict _ _ _ Hg), !(getitem_dict _ _ _ Ha). done.
Qed.

Lemma for_each_append_feature (polys : list value) (acc : list Feature) :
  Forall polygon_feature polys ->
  exists fs, for_each append_feature polys acc = Ok (acc ++ fs) /\
             Forall2 same_feature polys fs.
Proof.
  intros H. revert acc. induction H as [|p polys Hp _ IH]; intros acc.
  - exists []. simpl. rewrite app_nil_r. split; [done | constructor].
  - destruct (append_feature_polygon acc p Hp) as (f & Hf & Hsame).
    destruct (IH (acc ++ [f])) as (fs & Hfs & Hall).
    exists (f :: fs). simpl. rewrite Hf, Hfs, <- app_assoc. split; [done|].
    by constructor.
Qed.


Lemma sample_response_shape :
  sa_response sample_response sample_polygons
    (VStr "esriGeometryPolygon") (VDict (<[ "wkid" := VInt 4326 ]> ∅)).
Proof.
  exists (<[ "saPolygons" := VDict sample_sa_polygons ]> (<[ "messages" := VList [] ]> ∅)),
    sample_sa_polygons.
  repeat split; try reflexivity.
  unfold sample_polygons.
  repeat constructor; eexists _, _, _; repeat split; reflexivity.
Defined.


(** ** One unwrapping, written twice *)

Lemma fset_list_body_single (acc : list FeatureSet) (result : value) :
  fset_list_body acc result
  = (fs <- single_solve_fset result;; Ok (acc ++ [fs]))%R.
Proof.
  unfold fset_list_body, single_solve_fset, cell15, cell16.
  destruct (getitem result "saPolygons") as [sa|e]; cbn [Py.bind]; [|done].
  destruct (getitem sa "features") as [fs|e]; cbn [Py.bind]; [|done].
  destruct (iter fs) as [ps|e]; cbn [Py.bind]; [|done].
  destruct (for_each append_feature ps []) as [pfl|e]; cbn [Py.bind]; [|done].
  destruct (getitem sa "geometryType") as [gt|e]; cbn [Py.bind]; [|done].
  destruct (getitem sa "spatialReference") as [sr|e]; cbn [Py.bind]; done.
Qed.

Lemma fset_list_loop (sa_results : list value) (acc : list FeatureSet) :
  for_each fset_list_body sa_results acc
  = (l <- map_res single_solve_fset sa_results;; Ok (acc ++ l))%R.
Proof.
  revert acc. induction sa_results as [|r rs IH]; intros acc; simpl.
  - by rewrite app_nil_r.
  - rewrite fset_list_body_single.
    destruct (single_solve_fset r) as [fs|e]; cbn [Py.bind]; [|done].
    rewrite IH. destruct (map_res single_solve_fset rs) as [l|e]; cbn [Py.bind]; [|done].
    by rewrite <- app_assoc.
Qed.

(** C6. The unwrapping done after the single solve (cells 15 and 16) and
    the one done inside the time-of-day loop are the same function: on one
    response the loop yields exactly the single-solve [FeatureSet] (or
    raises the same exception), and on a list of responses it is the
    single-solve unwrapping applied to each in turn. *)
Theorem unmarshalling_agrees :
  (forall result,
     cell_fset_list [result] = (fs <- single_solve_fset result;; Ok [fs])%R) /\
  (forall sa_results,
     cell_fset_list sa_results = map_res single_solve_fset sa_results).
Proof.
  split.
  - intros result. unfold cell_fset_list. simpl.
    rewrite fset_list_body_single.
    by destruct (single_solve_fset result).
  - intros rs. unfold cell_fset_list. rewrite fset_list_loop.
    by destruct (map_res single_solve_fset rs).
Qed.

Lemma map_res_Forall2 {A B} (f : A -> res B) (xs : list A) (ys : list B) :
  map_res f xs = Ok ys <-> Forall2 (fun x y => f x = Ok y) xs ys.
Proof.
  revert ys. induction xs as [|x xs IH]; intros ys; simpl.
  - split; [intros [= <-]; constructor | by inversion 1].
  - destruct (f x) as [y|e] eqn:Hx.
    + destruct (map_res f xs) as [l|e] eqn:Hxs.
      * split.
        -- intros [= <-]. constructor; [done | by apply IH].
        -- inversion 1 as [|? y' ? l' Hy Hl]; subst.
           apply IH in Hl. congruence.
      * split; [done|]. inversion 1 as [|? y' ? l' Hy Hl]; subst.
        apply IH in Hl. done.
    + split; [done|]. inversion 1; subst. congruence.
Qed.

Lemma map_res_total {A B} (f : A -> res B) (xs : list A) :
  Forall (fun x => is_ok (f x) = true) xs -> exists ys, map_res f xs = Ok ys.
Proof.
  induction 1 as [|x xs Hx _ [ys IH]]; simpl; [by eexists|].
  destruct (f x) as [y|]; [|done]. rewrite IH. by eexists.
Qed.

(** ** Choosing the travel mode *)

Lemma eq_str_true (v : value) (s : string) : eq_str v s = true <-> v = VStr s.
Proof.
  destruct v; simpl; try (split; [done | by intros [=]]).
  rewrite String.eqb_eq. split; [by intros -> | by intros [= ->]].
Qed.

Lemma is_driving_time_named (t : value) :
  is_driving_time t = true <-> named "Driving Time" t.
Proof.
  unfold is_driving_time, named.
  destruct (getitem t "name") as [n|e]; [|split; [done | by intros [=]]].
  rewrite eq_str_true. split; [by intros -> | by intros [= ->]].
Qed.

Lemma comprehension_named (modes : list value) :
  Forall (fun t => exists name, getitem t "name" = Ok name) modes ->
  comprehension_if
    (fun t => (name <- getitem t "name";; Ok (eq_str name "Driving Time"))%R) modes
  = Ok (List.filter is_driving_time modes).
Proof.
  induction 1 as [|t modes [n Hn] _ IH]; simpl; [done|].
  unfold is_driving_time at 1. rewrite Hn, IH. done.
Qed.

Lemma filter_none (modes : list value) :
  Forall (fun t => ~ named "Driving Time" t) modes ->
  List.filter is_driving_time modes = [].
Proof.
  induction 1 as [|t modes Ht _ IH]; simpl; [done|].
  destruct (is_driving_time t) eqn:E; [|done].
  by apply is_driving_time_named in E.
Qed.

(** C10. From a catalog of named mode descriptors the selection yields the
    first entry whose ['name'] is exactly ['Driving Time']; when no entry
    has that name the indexing [[0]] of the empty selection raises
    [IndexError], and no default mode is returned. *)
Theorem truck_mode_selection (travel_modes : value) (modes : list value) :
  travel_catalog travel_modes modes ->
  (forall before t after,
     modes = before ++ t :: after ->
     named "Driving Time" t ->
     Forall (fun t' => ~ named "Driving Time" t') before ->
     truck_mode_of travel_modes = Ok t) /\
  (Forall (fun t' => ~ named "Driving Time" t') modes ->
   truck_mode_of travel_modes = Raise IndexError).
Proof.
  intros (d & -> & Hmodes & Hnamed).
  unfold truck_mode_of. cbn [getitem Py.bind]. rewrite Hmodes. cbn [iter Py.bind].
  rewrite (comprehension_named _ Hnamed). cbn [Py.bind].
  split.
  - intros before t after -> Ht Hbefore.
    rewrite List.filter_app, (filter_none _ Hbefore). simpl.
    apply is_driving_time_named in Ht. by rewrite Ht.
  - intros Hnone. by rewrite (filter_none _ Hnone).
Qed.

Lemma truck_mode_selection_witness :
  truck_mode_of sample_catalog
  = Ok (VDict (<[ "name" := VStr "Driving Time" ]> (<[ "id" := VInt 1 ]> ∅))) /\
  truck_mode_of walking_catalog = Raise IndexError.
Proof.
  split.
  - refine (proj1 (truck_mode_selection sample_catalog _ _)
              [VDict (<[ "name" := VStr "Walking Time" ]> ∅)] _
              [VDict (<[ "name" := VStr "Driving Time" ]> (<[ "id" := VInt 2 ]> ∅))]
              eq_refl _ _).
    + eexists. split; [reflexivity|]. split; [reflexivity|].
      repeat constructor; eexists; reflexivity.
    + reflexivity.
    + repeat constructor. unfold named. simpl. intros [=].
  - refine (proj2 (truck_mode_selection walking_catalog _ _) _).
    + eexists. split; [reflexivity|]. split; [reflexivity|].
      repeat constructor; eexists; reflexivity.
    + repeat constructor; unfold named; simpl; intros [=].
Defined.

(** ** The colour of a rendered polygon *)

Lemma Qeq_bool_inject (m n : Z) (q : Q) :
  Qeq q (inject_Z n) -> Qeq_bool (inject_Z m) q = (m =? n).
Proof.
  intros Hq. destruct (Z.eqb_spec m n) as [->|Hne].
  - apply Qeq_bool_iff. by symmetry.
  - destruct (Qeq_bool (inject_Z m) q) eqn:E; [|done].
    apply Qeq_bool_iff in E. exfalso. apply Hne.
    apply inject_Z_injective. by rewrite E.
Qed.

Lemma as_number_hashable (v : value) (q : Q) : as_number v = Some q -> hashable v = true.
Proof. by destruct v. Qed.

Lemma colors_getitem_in (n : Z) (tb : value) :
  to_break_is n tb ->
  int_dict_getitem colors tb
  = if n =? 5 then Ok (int_list [0; 128; 0; 90])
    else if n =? 10 then Ok (int_list [255; 255; 0; 90])
    else if n =? 15 then Ok (int_list [255; 0; 0; 90])
    else Raise (KeyError tb).
Proof.
  intros (q & Hnum & Hq). unfold int_dict_getitem, colors.
  rewrite (as_number_hashable _ _ Hnum), Hnum. cbn [List.find fst snd].
  rewrite !(Qeq_bool_inject _ n q Hq), !(Z.eqb_sym _ n).
  destruct (n =? 5); [done|]. destruct (n =? 10); [done|]. by destruct (n =? 15).
Qed.

Lemma colors_getitem_out (tb : value) :
  hashable tb = true ->
  ~ to_break_is 5 tb -> ~ to_break_is 10 tb -> ~ to_break_is 15 tb ->
  int_dict_getitem colors tb = Raise (KeyError tb).
Proof.
  intros Hh H5 H10 H15. unfold int_dict_getitem, colors. rewrite Hh.
  destruct (as_number tb) as [q|] eqn:Hnum; [|done].
  cbn [List.find fst snd].
  assert (Hno : forall n, ~ to_break_is n tb -> Qeq_bool (inject_Z n) q = false).
  { intros n Hn. destruct (Qeq_bool (inject_Z n) q) eqn:E; [|done].
    exfalso. apply Hn. exists q. split; [done|].
    apply Qeq_bool_iff in E. by symmetry. }
  by rewrite (Hno 5 H5), (Hno 10 H10), (Hno 15 H15).
Qed.

Lemma deref_insert (h : gmap loc (gmap string value)) (l : loc) (d : gmap string value) :
  deref (<[l := d]> h) l = d.
Proof. unfold deref. by rewrite lookup_insert_eq. Qed.

Section Rendering.
Context (str_format : value -> string) (fill_symbol : loc).

Lemma cell18_body_draws (service_area : Feature) (tb color : value) (w : world) :
  getitem (attributes service_area) "ToBreak" = Ok tb ->
  int_dict_getitem colors tb = Ok color ->
  drawn_with str_format fill_symbol service_area tb w color.
Proof.
  intros Htb Hc. unfold drawn_with, cell18_body, bindM, lift, setitem, draw, emit.
  rewrite Htb, Hc. cbn. by rewrite deref_insert.
Qed.

Lemma cell18_body_raises (service_area : Feature) (tb : value) (e : exn) (w : world) :
  getitem (attributes service_area) "ToBreak" = Ok tb ->
  int_dict_getitem colors tb = Raise e ->
  cell18_body str_format fill_symbol tt service_area w = (Raise e, w).
Proof.
  intros Htb Hc. unfold cell18_body, bindM, lift. by rewrite Htb, Hc.
Qed.

Lemma cell18_body_no_to_break (service_area : Feature) (e : exn) (w : world) :
  getitem (attributes service_area) "ToBreak" = Raise e ->
  cell18_body str_format fill_symbol tt service_area w = (Raise e, w).
Proof. intros Htb. unfold cell18_body, bindM, lift. by rewrite Htb. Qed.

Lemma cell18_body_inv (service_area : Feature) (w w' : world) :
  cell18_body str_format fill_symbol tt service_area w = (Ok tt, w') ->
  exists tb color,
    getitem (attributes service_area) "ToBreak" = Ok tb /\
    int_dict_getitem colors tb = Ok color /\
    drawn_with str_format fill_symbol service_area tb w color.
Proof.
  intros Hrun.
  destruct (getitem (attributes service_area) "ToBreak") as [tb|e] eqn:Htb.
  - destruct (int_dict_getitem colors tb) as [c|e] eqn:Hc.
    + exists tb, c. repeat split; try done. by apply cell18_body_draws.
    + by rewrite (cell18_body_raises _ _ _ _ Htb Hc) in Hrun.
  - by rewrite (cell18_body_no_to_break _ _ _ Htb) in Hrun.
Qed.

End Rendering.

(** C2. The colour handed to [draw] for a polygon is read off its
    ['ToBreak'] value by the fixed table: 5 gives [0,128,0,90], 10 gives
    [255,255,0,90], 15 gives [255,0,0,90]. For any other (hashable, as
    every attribute value json yields is) ['ToBreak'] the lookup raises
    [KeyError]; nothing is drawn and the symbol is left as it was. *)
Theorem color_by_to_break (str_format : value -> string) (fill_symbol : loc)
    (service_area : Feature) (tb : value) (w : world) :
  getitem (attributes service_area) "ToBreak" = Ok tb ->
  (to_break_is 5 tb ->
   drawn_with str_format fill_symbol service_area tb w (int_list [0; 128; 0; 90])) /\
  (to_break_is 10 tb ->
   drawn_with str_format fill_symbol service_area tb w (int_list [255; 255; 0; 90])) /\
  (to_break_is 15 tb ->
   drawn_with str_format fill_symbol service_area tb w (int_list [255; 0; 0; 90])) /\
  (hashable tb = true ->
   ~ to_break_is 5 tb -> ~ to_break_is 10 tb -> ~ to_break_is 15 tb ->
   cell18_body str_format fill_symbol tt service_area w = (Raise (KeyError tb), w)).
Proof.
  intros Htb. repeat split.
  - intros H. apply cell18_body_draws; [done|]. by rewrite (colors_getitem_in 5).
  - intros H. apply cell18_body_draws; [done|]. by rewrite (colors_getitem_in 10).
  - intros H. apply cell18_body_draws; [done|]. by rewrite (colors_getitem_in 15).
  - intros Hh H5 H10 H15. apply cell18_body_raises with tb; [done|].
    by apply colors_getitem_out.
Qed.

Lemma color_by_to_break_witness :
  drawn_with sample_format 0%nat (sample_area (VFloat (20 # 2)))
    (VFloat (20 # 2)) empty_world (int_list [255; 255; 0; 90]) /\
  cell18_body sample_format 0%nat tt (sample_area (VInt 7)) empty_world
  = (Raise (KeyError (VInt 7)), empty_world).
Proof.
  split.
  - apply (color_by_to_break sample_format 0%nat (sample_area (VFloat (20 # 2)))
             (VFloat (20 # 2)) empty_world eq_refl).
    exists (20 # 2). split; reflexivity.
  - apply (color_by_to_break sample_format 0%nat (sample_area (VInt 7))
             (VInt 7) empty_world eq_refl).
    + reflexivity.
    + intros (q & [= <-] & Hq). discriminate Hq.
    + intros (q & [= <-] & Hq). discriminate Hq.
    + intros (q & [= <-] & Hq). discriminate Hq.
Defined.

(** ** The symbol dictionary is one shared object *)

Lemma colors_getitem_range (tb color : value) :
  int_dict_getitem colors tb = Ok color ->
  color = int_list [0; 128; 0; 90] \/ color = int_list [255; 255; 0; 90] \/
  color = int_list [255; 0; 0; 90].
Proof.
  unfold int_dict_getitem, colors.
  destruct (hashable tb); [|done]. destruct (as_number tb) as [q|]; [|done].
  cbn [List.find fst snd].
  destruct (Qeq_bool (inject_Z 5) q); [intros [= <-]; auto|].
  destruct (Qeq_bool (inject_Z 10) q); [intros [= <-]; auto|].
  destruct (Qeq_bool (inject_Z 15) q); [intros [= <-]; auto|done].
Qed.

Lemma fill_symbol_init_color :
  fill_symbol_init = <[ "color" := int_list [115; 76; 0; 255] ]> fill_symbol_init.
Proof. symmetry. by apply insert_id. Qed.

Lemma for_eachM_one {A} (body : unit -> A -> M unit) (x : A) (w w' : world) :
  for_eachM body [x] tt w = (Ok tt, w') -> body tt x w = (Ok tt, w').
Proof.
  simpl. unfold bindM, ret. destruct (body tt x w) as [[[]|e] w1]; [done|].
  intros [=].
Qed.

Lemma cell18_loop (str_format : value -> string) (l : loc) (feats : list Feature) :
  forall (w w' : world) (c0 : value),
    heap w !! l = Some (<[ "color" := c0 ]> fill_symbol_init) ->
    for_eachM (cell18_body str_format l) feats tt w = (Ok tt, w') ->
    exists draws c1,
      log w' = log w ++ draws /\
      length draws = length feats /\
      Forall (draws_with_symbol l) draws /\
      heap w' = <[ l := <[ "color" := c1 ]> fill_symbol_init ]> (heap w) /\
      (forall init last, feats = init ++ [last] ->
         exists tb, getitem (attributes last) "ToBreak" = Ok tb /\
                    int_dict_getitem colors tb = Ok c1).
Proof.
  induction feats as [|x xs IH] using rev_ind; intros w w' c0 Hsym Hrun.
  - injection Hrun as <-. exists [], c0. rewrite app_nil_r.
    repeat split; try done.
    + symmetry. by apply insert_id.
    + intros init last Habs. by destruct init.
  - rewrite for_eachM_app in Hrun.
    destruct (for_eachM (cell18_body str_format l) xs tt w) as [[[]|e] w1] eqn:Hxs;
      [|done].
    destruct (IH w w1 c0 Hsym Hxs) as (draws & c1 & Hlog & Hlen & Hall & Hheap & _).
    apply for_eachM_one in Hrun.
    destruct (cell18_body_inv _ _ _ _ _ Hrun) as (tb & c & Htb & Hc & Hdraw).
    unfold drawn_with in Hdraw. rewrite Hrun in Hdraw. injection Hdraw as ->.
    rewrite Hheap, deref_insert, !insert_insert_eq.
    eexists (draws ++ [_]), c. cbn [log heap].
    repeat split.
    + by rewrite Hlog, <- app_assoc.
    + rewrite !length_app, Hlen. done.
    + apply Forall_app. split; [done|]. constructor; [|done]. by eexists _, _, _.
    + intros init last Heq. apply app_inj_tail in Heq as [_ <-]. by exists tb.
Qed.

(** C8. The rendering loop hands every [draw] the one [fill_symbol]
    object created by cell 17; between draws only its ['color'] entry is
    assigned, ['type'] and ['style'] stay as they were; and once the loop
    has completed the object's ['color'] is the table colour of the last
    polygon's ['ToBreak'], no longer the initial [115,76,0,255]. *)
Theorem shared_fill_symbol (str_format : value -> string) (service_area_fset : FeatureSet)
    (init : list Feature) (last : Feature) (w w' : world) (fill_symbol : loc) :
  features service_area_fset = init ++ [last] ->
  render_service_area str_format service_area_fset w = (Ok fill_symbol, w') ->
  exists draws tb color,
    heap w !! fill_symbol = None /\
    log w' = log w ++ draws /\
    length draws = length (features service_area_fset) /\
    Forall (draws_with_symbol fill_symbol) draws /\
    getitem (attributes last) "ToBreak" = Ok tb /\
    int_dict_getitem colors tb = Ok color /\
    heap w' = <[ fill_symbol := <[ "color" := color ]> fill_symbol_init ]> (heap w) /\
    deref (heap w') fill_symbol !! "color" = Some color /\
    color <> int_list [115; 76; 0; 255] /\
    deref (heap w') fill_symbol !! "type" = Some (VStr "esriSFS") /\
    deref (heap w') fill_symbol !! "style" = Some (VStr "esriSFSSolid").
Proof.
  intros Hfeats Hrun.
  unfold render_service_area, cell17, alloc, cell18, bindM, ret in Hrun.
  set (l := fresh (dom (heap w))) in *.
  set (w1 := mkWorld (<[ l := fill_symbol_init ]> (heap w)) (log w)) in *.
  destruct (for_eachM (cell18_body str_format l) (features service_area_fset) tt w1)
    as [[[]|e] w2] eqn:Hloop; [|done].
  injection Hrun as <- <-.
  assert (Hsym : heap w1 !! l
                 = Some (<[ "color" := int_list [115; 76; 0; 255] ]> fill_symbol_init)).
  { unfold w1. cbn [heap]. by rewrite lookup_insert_eq, <- fill_symbol_init_color. }
  destruct (cell18_loop _ _ _ _ _ _ Hsym Hloop)
    as (draws & c & Hlog & Hlen & Hall & Hheap & Hlast).
  destruct (Hlast init last Hfeats) as (tb & Htb & Hc).
  exists draws, tb, c. unfold w1 in Hheap. cbn [heap log] in *.
  rewrite insert_insert_eq in Hheap. rewrite Hheap, deref_insert.
  repeat split; try done.
  - apply not_elem_of_dom. apply is_fresh.
  - destruct (colors_getitem_range _ _ Hc) as [-> | [-> | ->]]; by intros [=].
Qed.

Lemma shared_fill_symbol_witness :
  exists draws tb color,
    heap empty_world !! 0%nat = None /\
    log (render_service_area sample_format sample_areas empty_world).2
      = log empty_world ++ draws /\
    length draws = length (features sample_areas) /\
    Forall (draws_with_symbol 0%nat) draws /\
    getitem (attributes (sample_area (VInt 5))) "ToBreak" = Ok tb /\
    int_dict_getitem colors tb = Ok color /\
    heap (render_service_area sample_format sample_areas empty_world).2
      = <[ 0%nat := <[ "color" := color ]> fill_symbol_init ]> (heap empty_world) /\
    deref (heap (render_service_area sample_format sample_areas empty_world).2) 0%nat
      !! "color" = Some color /\
    color <> int_list [115; 76; 0; 255] /\
    deref (heap (render_service_area sample_format sample_areas empty_world).2) 0%nat
      !! "type" = Some (VStr "esriSFS") /\
    deref (heap (render_service_area sample_format sample_areas empty_world).2) 0%nat
      !! "style" = Some (VStr "esriSFSSolid").
Proof.
  apply (shared_fill_symbol sample_format sample_areas
           [sample_area (VInt 15)] (sample_area (VInt 5)) empty_world _ 0%nat).
  - reflexivity.
  - vm_compute. reflexivity.
Defined.

(** ** The animation *)

Lemma animation_inner_loop (labels : list value) (fsets : list FeatureSet) :
  forall (j : nat) (w : world),
    (j + length fsets <= length labels)%nat ->
    for_eachM (animation_inner labels) fsets j w
    = (Ok (j + length fsets)%nat,
       mkWorld (heap w)
         (log w ++ concat (zip_with frame_events (drop j labels) fsets))).
Proof.
  induction fsets as [|fs fsets IH]; intros j w Hlen; simpl in *.
  - unfold ret. rewrite Nat.add_0_r. destruct (drop j labels); simpl;
      rewrite app_nil_r; by destruct w.
  - destruct (lookup_lt_is_Some_2 labels j) as [label Hlabel]; [lia|].
    rewrite (drop_S _ _ _ Hlabel). simpl.
    unfold bindM at 1. unfold animation_inner at 1.
    unfold bindM, lift, list_getitem, print, draw, sleep, emit, ret. rewrite Hlabel.
    cbn [log heap fmap option_fmap option_map].
    rewrite (IH (j + 1)%nat); [|simpl; lia]. cbn [log heap].
    rewrite Nat.add_1_r, Nat.add_succ_r, <- !app_assoc. simpl. done.
Qed.

Lemma animation_pass_run (fsets : list FeatureSet) (l : nat) (w : world) :
  (length fsets <= length time_labels)%nat ->
  animation_pass time_labels fsets tt l w
  = (Ok tt, mkWorld (heap w) (log w ++ pass_events fsets)).
Proof.
  intros Hlen. unfold animation_pass, bindM, clear_graphics, emit.
  rewrite animation_inner_loop; [|by cbn [log heap]].
  cbn [log heap drop ret]. unfold ret, pass_events.
  by rewrite <- app_assoc.
Qed.

Lemma cell_animation_run (fsets : list FeatureSet) (w : world) :
  (length fsets <= length time_labels)%nat ->
  cell_animation fsets w
  = (Ok tt, mkWorld (heap w) (log w ++ animation_events fsets)).
Proof.
  intros Hlen. unfold cell_animation, bindM at 1 2, clear_graphics, sleep, emit.
  cbn [log heap seq for_eachM]. unfold bindM, ret.
  rewrite !animation_pass_run by done. cbn [log heap].
  unfold animation_events. cbn [replicate concat].
  rewrite app_nil_r, <- !app_assoc. done.
Qed.

Lemma draws_of_app (m : map_id) (xs ys : list event) :
  draws_of m (xs ++ ys) = draws_of m xs ++ draws_of m ys.
Proof. apply flat_map_app. Qed.

Lemma solve_calls_app (xs ys : list event) :
  solve_calls (xs ++ ys) = solve_calls xs ++ solve_calls ys.
Proof. apply flat_map_app. Qed.

Lemma draws_of_frames (labels : list value) (fsets : list FeatureSet) :
  (length fsets <= length labels)%nat ->
  draws_of Map2 (concat (zip_with frame_events labels fsets)) = ShapeFeatureSet <$> fsets.
Proof.
  revert labels. induction fsets as [|fs fsets IH]; intros [|lab labels] Hlen;
    simpl in *; try done; try lia.
  f_equal. apply IH. lia.
Qed.

Lemma solve_calls_frames (labels : list value) (fsets : list FeatureSet) :
  solve_calls (concat (zip_with frame_events labels fsets)) = [].
Proof.
  revert fsets. induction labels as [|lab labels IH]; intros [|fs fsets]; simpl; done.
Qed.

Lemma draws_of_pass (fsets : list FeatureSet) :
  (length fsets <= length time_labels)%nat ->
  draws_of Map2 (pass_events fsets) = ShapeFeatureSet <$> fsets.
Proof.
  intros Hlen. unfold pass_events.
  change (draws_of Map2 (concat (zip_with frame_events time_labels fsets))
          = ShapeFeatureSet <$> fsets).
  by apply draws_of_frames.
Qed.

Lemma draws_of_animation (fsets : list FeatureSet) :
  (length fsets <= length time_labels)%nat ->
  draws_of Map2 (animation_events fsets)
  = concat (replicate 3 (ShapeFeatureSet <$> fsets)).
Proof.
  intros Hlen. unfold animation_events. cbn [replicate concat].
  rewrite !draws_of_app, !draws_of_pass by done. done.
Qed.

Lemma solve_calls_animation (fsets : list FeatureSet) :
  solve_calls (animation_events fsets) = [].
Proof.
  unfold animation_events, pass_events. cbn [replicate concat].
  assert (Hpass : solve_calls
            (EvClear Map2 :: concat (zip_with frame_events time_labels fsets)) = []).
  { change (solve_calls (concat (zip_with frame_events time_labels fsets)) = []).
    apply solve_calls_frames. }
  by rewrite !solve_calls_app, !Hpass.
Qed.

(** *** What is visible while the animation runs *)

Lemma frames_prefix (fsets : list FeatureSet) :
  forall (labels : list value) (shown : list shape) (pre post : list event),
    concat (zip_with frame_events labels fsets) = pre ++ post ->
    exists n, fold_left (widget_step Map2) pre shown
              = shown ++ take n (ShapeFeatureSet <$> fsets).
Proof.
  induction fsets as [|fs fsets IH]; intros labels shown pre post Heq.
  - assert (pre = []) as ->.
    { destruct labels; simpl in Heq; symmetry in Heq; by apply app_eq_nil in Heq as [-> _]. }
    exists 0%nat. simpl. by rewrite app_nil_r.
  - destruct labels as [|lab labels].
    { simpl in Heq. symmetry in Heq. apply app_eq_nil in Heq as [-> _].
      exists 0%nat. simpl. by rewrite app_nil_r. }
    simpl in Heq.
    destruct pre as [|e1 [|e2 [|e3 pre]]]; simpl in Heq.
    + exists 0%nat. simpl. by rewrite app_nil_r.
    + injection Heq as <- _. exists 0%nat. simpl. by rewrite app_nil_r.
    + injection Heq as <- <- _. by exists 1%nat.
    + injection Heq as <- <- <- Heq.
      destruct (IH labels (shown ++ [ShapeFeatureSet fs]) pre post Heq) as [n Hn].
      exists (S n). simpl. rewrite Hn, <- app_assoc. done.
Qed.

Lemma pass_one_pass_visible (fsets : list FeatureSet) :
  one_pass_visible fsets (pass_events fsets).
Proof.
  intros gs0 [|e pre] post Heq Hne; [done|].
  unfold pass_events in Heq. injection Heq as <- Heq. cbn [fold_left widget_step map_id_eqb].
  destruct (frames_prefix fsets time_labels [] pre post Heq) as [n Hn]. by exists n.
Qed.

Lemma one_pass_visible_app (fsets : list FeatureSet) (xs ys : list event) :
  one_pass_visible fsets xs -> one_pass_visible fsets ys ->
  one_pass_visible fsets (xs ++ ys).
Proof.
  intros Hxs Hys gs0 pre post Heq Hne.
  apply app_eq_app in Heq as [k [[-> ->] | [-> ->]]].
  - by apply (Hxs gs0 pre k).
  - destruct k as [|e k].
    + rewrite app_nil_r in *. apply (Hxs gs0 xs []); [by rewrite app_nil_r | done].
    + rewrite fold_left_app. by apply (Hys _ (e :: k) post).
Qed.

Lemma animation_one_pass_visible (fsets : list FeatureSet) :
  one_pass_visible fsets (animation_events fsets).
Proof.
  unfold animation_events. cbn [replicate concat].
  repeat apply one_pass_visible_app; try apply pass_one_pass_visible.
  - intros gs0 pre post Heq Hne. exists 0%nat.
    destruct pre as [|e1 pre]; [done|]. injection Heq as <- Heq.
    destruct pre as [|e2 pre]; [done|]. injection Heq as <- Heq.
    by destruct pre.
  - intros gs0 pre post Heq Hne. symmetry in Heq. by apply app_eq_nil in Heq as [-> _].
Qed.

Lemma frames_split (fsets : list FeatureSet) :
  forall (labels : list value) (j : nat) (fs : FeatureSet),
    fsets !! j = Some fs ->
    (length fsets <= length labels)%nat ->
    exists label after,
      labels !! j = Some label /\
      concat (zip_with frame_events labels fsets)
      = concat (zip_with frame_events labels (take j fsets))
        ++ [EvPrint label; EvDraw Map2 (ShapeFeatureSet fs) None None] ++ after.
Proof.
  induction fsets as [|f fsets IH]; intros [|lab labels] j fs Hj Hlen;
    simpl in *; try done; try lia.
  destruct j as [|j]; simpl in *.
  - injection Hj as ->. by eexists lab, _.
  - destruct (IH labels j fs Hj) as (label & after & Hl & Heq); [lia|].
    exists label, after. split; [done|]. by rewrite Heq.
Qed.

(** C9. With no more sets than labels (the notebook has five of each), the
    animation runs to its end and logs: a clear, a pause, and three passes;
    every pass starts by clearing [map2] and then prints, draws and pauses
    once per set. So the list is drawn three times over; after any
    non-empty initial part of the run [map2] shows sets of a single pass
    only; and what is printed just before the j-th draw of a pass is the
    j-th label. *)
Theorem animation_passes (SD_fset_list : list FeatureSet) (w : world) :
  (length SD_fset_list <= length time_labels)%nat ->
  cell_animation SD_fset_list w
    = (Ok tt, mkWorld (heap w) (log w ++ animation_events SD_fset_list)) /\
  animation_events SD_fset_list
    = [EvClear Map2; EvSleep 2] ++ concat (replicate 3 (pass_events SD_fset_list)) /\
  draws_of Map2 (animation_events SD_fset_list)
    = concat (replicate 3 (ShapeFeatureSet <$> SD_fset_list)) /\
  (forall pre post,
     animation_events SD_fset_list = pre ++ post -> pre <> [] ->
     shows_one_pass SD_fset_list (graphics_of Map2 (log w ++ pre))) /\
  (forall j fs,
     SD_fset_list !! j = Some fs ->
     exists label before after,
       time_labels !! j = Some label /\
       pass_events SD_fset_list
       = EvClear Map2 :: before
         ++ [EvPrint label; EvDraw Map2 (ShapeFeatureSet fs) None None] ++ after /\
       draws_of Map2 before = ShapeFeatureSet <$> take j SD_fset_list).
Proof.
  intros Hlen. repeat split.
  - by apply cell_animation_run.
  - by apply draws_of_animation.
  - intros pre post Heq Hne. unfold graphics_of. rewrite fold_left_app.
    by apply (animation_one_pass_visible SD_fset_list _ pre post).
  - intros j fs Hj.
    destruct (frames_split _ time_labels j fs Hj Hlen) as (label & after & Hl & Heq).
    exists label, (concat (zip_with frame_events time_labels (take j SD_fset_list))), after.
    repeat split; [done | by unfold pass_events; rewrite Heq |].
    apply draws_of_frames. rewrite length_take. lia.
Qed.

Lemma animation_passes_witness :
  cell_animation [sample_areas; sample_areas] empty_world
  = (Ok tt, mkWorld ∅ (animation_events [sample_areas; sample_areas])).
Proof.
  refine (proj1 (animation_passes [sample_areas; sample_areas] empty_world _)).
  simpl. lia.
Defined.

(** ** One solve per time of day *)

Section TimeOfDay.
Context (solver : list event -> sa_request -> value) (fset : FeatureSet).

Lemma solve_loop (times : list value) :
  forall (acc : list value) (w : world),
    exists responses,
      length responses = length times /\
      Forall (fun r => exists h req, r = solver h req) responses /\
      for_eachM (solve_times_body solver fset) times acc w
      = (Ok (acc ++ responses),
         mkWorld (heap w) (log w ++ solve_events fset times responses)).
Proof.
  induction times as [|t times IH]; intros acc w.
  - exists []. simpl. unfold ret. rewrite !app_nil_r. by destruct w.
  - set (req := time_request fset t).
    set (r := solver (log w ++ [EvSolveCall req]) req).
    destruct (IH (acc ++ [r])
                (mkWorld (heap w) ((log w ++ [EvSolveCall req]) ++ [EvSolveReturn r])))
      as (rs & Hlen & Hall & Hrun).
    exists (r :: rs). repeat split.
    + simpl. by rewrite Hlen.
    + constructor; [by eexists _, _ | done].
    + cbn [for_eachM]. unfold bindM at 1. unfold solve_times_body at 1.
      unfold bindM, solve_service_area, bindM, emit, ret. cbn [log heap].
      fold req. fold r. rewrite Hrun. cbn [log heap].
      unfold solve_events. cbn [zip_with concat]. fold req.
      by rewrite <- !app_assoc.
Qed.

Lemma solve_calls_solve_events (times responses : list value) :
  length responses = length times ->
  solve_calls (solve_events fset times responses) = time_request fset <$> times.
Proof.
  revert responses. induction times as [|t times IH]; intros [|r rs] Hlen;
    simpl in *; try done.
  f_equal. apply IH. lia.
Qed.

Lemma draws_of_solve_events (m : map_id) (times responses : list value) :
  draws_of m (solve_events fset times responses) = [].
Proof.
  revert responses. induction times as [|t times IH]; intros [|r rs]; simpl; try done.
  apply IH.
Qed.

End TimeOfDay.

Lemma time_of_day_run (solver : list event -> sa_request -> value)
    (fset : FeatureSet) (times : list value) (w : world) :
  (length times <= length time_labels)%nat ->
  (forall h req, is_ok (single_solve_fset (solver h req)) = true) ->
  time_of_day_outcome solver fset times w.
Proof.
  intros Hlen Hok.
  destruct (solve_loop solver fset times [] w) as (responses & Hrs & Hfrom & Hsolve).
  destruct (map_res_total single_solve_fset responses) as [fsets Hmap].
  { eapply Forall_impl; [exact Hfrom|]. intros r (h & req & ->). apply Hok. }
  pose proof (proj1 (map_res_Forall2 _ _ _) Hmap) as Hall.
  pose proof (Forall2_length _ _ _ Hall) as Hfs.
  assert (Hk : (length fsets <= length time_labels)%nat) by lia.
  exists responses, fsets, (solve_events fset times responses ++ animation_events fsets).
  repeat split; try done; try lia.
  - unfold time_of_day_workflow, bindM at 1 2 3, cell_solve_times, lift.
    rewrite Hsolve. cbn [app]. unfold cell_fset_list.
    rewrite fset_list_loop, Hmap. cbn [Py.bind app].
    rewrite cell_animation_run by done. unfold ret. cbn [log heap].
    by rewrite <- app_assoc.
  - rewrite solve_calls_app, solve_calls_animation, app_nil_r.
    by apply solve_calls_solve_events.
  - rewrite draws_of_app, draws_of_solve_events. by apply draws_of_animation.
Qed.


(** X18. The notebook's own sample list, one timestamp per hour in
    [6, 10, 14, 18, 22], is within the five labels: whenever the five
    responses unwrap, the time-of-day cells run to their end, with five
    solves, five sets and every pass drawing all five. *)
Lemma notebook_time_of_day (solver : list event -> sa_request -> value)
    (timestamp_ms : Z -> value) (fset : FeatureSet) (w : world) :
  (forall h req, is_ok (single_solve_fset (solver h req)) = true) ->
  time_of_day_outcome solver fset (day_times timestamp_ms) w.
Proof. intros Hok. apply time_of_day_run; [|done]. simpl. lia. Qed.




Lemma six_samples_run :
  let run := time_of_day_workflow sample_solver sample_facilities
               (VInt <$> [1; 2; 3; 4; 5; 6]) empty_world in
  run.1 = Raise IndexError /\
  length (solve_calls (log run.2)) = 6%nat /\
  length (draws_of Map2 (log run.2)) = 5%nat.
Proof. vm_compute. done. Qed.

(** ** A geocoding miss *)

(** C5, as the code has it. When the geocoder returns no candidate, taking
    the first one with [[0]] raises [IndexError]: the cell stops there,
    with the geocoding call as its only effect, before any location is
    read or drawn. *)
Theorem geocoding_miss_raises (geocode_service : list event -> string -> list value)
    (w : world) :
  (geocode_service (log w) "San Diego Convention Center" = [] ->
   cell6 geocode_service w
   = (Raise IndexError,
      mkWorld (heap w) (log w ++ [EvGeocode "San Diego Convention Center" []]))) /\
  (geocode_service (log w) "Balboa park, San Diego, CA" = [] ->
   cell19 geocode_service w
   = (Raise IndexError,
      mkWorld (heap w) (log w ++ [EvGeocode "Balboa park, San Diego, CA" []]))).
Proof.
  split; intros Hmiss.
  - unfold cell6, bindM, geocode, lift. by rewrite Hmiss.
  - unfold cell19, bindM, geocode, lift. by rewrite Hmiss.
Qed.

Lemma geocoding_miss_raises_witness :
  cell6 no_geocoder empty_world
  = (Raise IndexError, mkWorld ∅ [EvGeocode "San Diego Convention Center" []]) /\
  cell19 no_geocoder empty_world
  = (Raise IndexError, mkWorld ∅ [EvGeocode "Balboa park, San Diego, CA" []]).
Proof.
  split.
  - apply (proj1 (geocoding_miss_raises no_geocoder empty_world)). reflexivity.
  - apply (proj2 (geocoding_miss_raises no_geocoder empty_world)). reflexivity.
Defined.

(** C5 as the spec states it fails when the geocoder finds nothing: what
    cell 6 raises is the out-of-range [IndexError] itself. *)
Lemma geocoding_miss_not_signalled :
  ~ signals_no_match (cell6 no_geocoder empty_world).1.
Proof. intros (e & He & Hne). vm_compute in He. by injection He as <-. Qed.

(** ** What the notebook itself asks of the services *)

(** X19. The list the notebook's animation replays, built by the solve
    cell and the unwrapping cell from the five hours, has exactly as many
    sets as there are labels, so the label index stays in range. *)
Lemma notebook_fset_list_length (solver : list event -> sa_request -> value)
    (timestamp_ms : Z -> value) (fset : FeatureSet) (w w1 : world)
    (sa_results : list value) (SD_fset_list : list FeatureSet) :
  cell_solve_times solver fset (day_times timestamp_ms) w = (Ok sa_results, w1) ->
  cell_fset_list sa_results = Ok SD_fset_list ->
  length SD_fset_list = length time_labels.
Proof.
  unfold cell_solve_times, cell_fset_list.
  destruct (solve_loop solver fset (day_times timestamp_ms) [] w)
    as (rs & Hlen & _ & ->).
  intros [= <- _]. rewrite fset_list_loop. cbn [app].
  destruct (map_res single_solve_fset rs) as [l|e] eqn:Hmap; [|done].
  intros [= <-]. apply map_res_Forall2, Forall2_length in Hmap.
  rewrite <- Hmap, Hlen. reflexivity.
Qed.

(** A response can only be unwrapped if it has an ['saPolygons'] entry. *)
Lemma unwrapped_response_has_polygons (result : value) (fs : FeatureSet) :
  single_solve_fset result = Ok fs ->
  exists d sa, result = VDict d /\ d !! "saPolygons" = Some sa.
Proof.
  unfold single_solve_fset, cell15. destruct result; try done. cbn [getitem].
  destruct (d !! "saPolygons") as [sa|] eqn:Hsa; [|done]. by eexists _, _.
Qed.

(** The ['messages'] entry is never read: with or without it, and whatever
    it holds, the unwrapping gives the same result. *)
Lemma messages_not_read (d : gmap string value) (messages : value) :
  single_solve_fset (VDict (<[ "messages" := messages ]> d))
  = single_solve_fset (VDict (delete "messages" d)).
Proof.
  unfold single_solve_fset, cell15, cell16. cbn [getitem].
  by rewrite lookup_insert_ne, lookup_delete_ne.
Qed.

(** A list as ['ToBreak'] is not hashable: the colour lookup raises
    [TypeError], again before anything is drawn. *)
Example unhashable_to_break :
  cell18_body sample_format 0%nat tt (sample_area (VList [VInt 5])) empty_world
  = (Raise TypeError, empty_world).
Proof. reflexivity. Qed.

(** Without a ['ToBreak'] attribute the turn raises [KeyError] as well. *)
Example missing_to_break :
  cell18_body sample_format 0%nat tt (mkFeature VNone (VDict ∅)) empty_world
  = (Raise (KeyError (VStr "ToBreak")), empty_world).
Proof. reflexivity. Qed.

(** The name must match exactly: no mode, no default. *)
Example no_driving_time : truck_mode_of walking_catalog = Raise IndexError.
Proof. reflexivity. Qed.

(** * Further properties of the cells *)

(** ** Rendering, polygon by polygon *)

Lemma colors_getitem_ok (tb color : value) :
  int_dict_getitem colors tb = Ok color -> in_table tb.
Proof.
  unfold int_dict_getitem, colors, in_table, to_break_is.
  destruct (hashable tb); [|done]. destruct (as_number tb) as [q|]; [|done].
  cbn [List.find fst snd].
  destruct (Qeq_bool (inject_Z 5) q) eqn:E5.
  { intros _. left. exists q. split; [done|]. symmetry. by apply Qeq_bool_iff. }
  destruct (Qeq_bool (inject_Z 10) q) eqn:E10.
  { intros _. right. left. exists q. split; [done|]. symmetry. by apply Qeq_bool_iff. }
  destruct (Qeq_bool (inject_Z 15) q) eqn:E15; [|done].
  intros _. right. right. exists q. split; [done|]. symmetry. by apply Qeq_bool_iff.
Qed.

Lemma in_table_colors (tb : value) :
  in_table tb -> exists color, int_dict_getitem colors tb = Ok color.
Proof.
  intros [H | [H | H]].
  - rewrite (colors_getitem_in 5 tb H). by eexists.
  - rewrite (colors_getitem_in 10 tb H). by eexists.
  - rewrite (colors_getitem_in 15 tb H). by eexists.
Qed.

Lemma not_renderable_raises (str_format : value -> string) (f : Feature) :
  ~ renderable f ->
  exists e, forall l w, cell18_body str_format l tt f w = (Raise e, w).
Proof.
  intros Hnot.
  destruct (getitem (attributes f) "ToBreak") as [tb|e] eqn:Htb.
  - destruct (int_dict_getitem colors tb) as [c|e] eqn:Hc.
    + exfalso. apply Hnot. exists tb. split; [done|]. by eapply colors_getitem_ok.
    + exists e. intros l w. by apply cell18_body_raises with tb.
  - exists e. intros l w. by apply cell18_body_no_to_break.
Qed.

Lemma cell18_ok_renderable (str_format : value -> string) (l : loc)
    (feats : list Feature) :
  forall w w',
    for_eachM (cell18_body str_format l) feats tt w = (Ok tt, w') ->
    Forall renderable feats.
Proof.
  induction feats as [|f feats IH]; intros w w' Hrun; [constructor|].
  cbn [for_eachM] in Hrun. unfold bindM in Hrun.
  destruct (cell18_body str_format l tt f w) as [[[]|e] w1] eqn:Hf; [|done].
  constructor; [|by eapply IH].
  destruct (cell18_body_inv _ _ _ _ _ Hf) as (tb & c & Htb & Hc & _).
  exists tb. split; [done|]. by eapply colors_getitem_ok.
Qed.

Lemma cell18_trace (str_format : value -> string) (l : loc) (feats : list Feature) :
  forall (w : world) (c0 : value),
    heap w !! l = Some (<[ "color" := c0 ]> fill_symbol_init) ->
    Forall renderable feats ->
    exists draws c1,
      for_eachM (cell18_body str_format l) feats tt w
      = (Ok tt, mkWorld (<[ l := <[ "color" := c1 ]> fill_symbol_init ]> (heap w))
                  (log w ++ draws)) /\
      Forall2 (rendered str_format l) feats draws /\
      (feats = [] -> c1 = c0).
Proof.
  induction feats as [|f feats IH]; intros w c0 Hsym Hall.
  - exists [], c0. cbn [for_eachM]. unfold ret. rewrite app_nil_r.
    rewrite (insert_id _ _ _ Hsym). split; [by destruct w|]. split; [constructor | done].
  - apply Forall_cons in Hall as [(tb & Htb & Hin) Hall].
    destruct (in_table_colors tb Hin) as [c Hc].
    pose proof (cell18_body_draws str_format l f tb c w Htb Hc) as Hf.
    unfold drawn_with in Hf. cbn zeta in Hf.
    assert (Hd : deref (heap w) l = <[ "color" := c0 ]> fill_symbol_init)
      by (unfold deref; by rewrite Hsym).
    rewrite Hd, insert_insert_eq in Hf.
    set (ev := EvDraw Map1 (ShapeGeometry (geometry f))
                 (Some (l, <[ "color" := c ]> fill_symbol_init))
                 (Some (popup_of str_format tb))) in *.
    destruct (IH (mkWorld (<[ l := <[ "color" := c ]> fill_symbol_init ]> (heap w))
                    (log w ++ [ev])) c)
      as (draws & c1 & Hrun & Hdraws & _); [by cbn [heap]; rewrite lookup_insert_eq | done |].
    exists (ev :: draws), c1. cbn [for_eachM]. unfold bindM. rewrite Hf, Hrun.
    cbn [heap log]. rewrite insert_insert_eq, <- app_assoc.
    split; [done|]. split; [|done].
    constructor; [|done]. by exists tb, c.
Qed.

Lemma draws_of_rendered (str_format : value -> string) (l : loc)
    (feats : list Feature) (draws : list event) :
  Forall2 (rendered str_format l) feats draws ->
  draws_of Map1 draws = (fun f => ShapeGeometry (geometry f)) <$> feats.
Proof.
  induction 1 as [|f e feats draws (tb & c & _ & _ & ->) _ IH]; [done|].
  rewrite fmap_cons. cbn [draws_of flat_map map_id_eqb app].
  f_equal. exact IH.
Qed.

Lemma render_unfold (str_format : value -> string) (fset : FeatureSet) (w : world) :
  render_service_area str_format fset w
  = match for_eachM (cell18_body str_format (fresh (dom (heap w)))) (features fset) tt
            (mkWorld (<[ fresh (dom (heap w)) := fill_symbol_init ]> (heap w)) (log w)) with
    | (Ok _, w') => (Ok (fresh (dom (heap w))), w')
    | (Raise e, w') => (Raise e, w')
    end.
Proof.
  unfold render_service_area, cell17, alloc, cell18, bindM, ret.
  by destruct (for_eachM _ _ _ _) as [[[]|e] w'].
Qed.

Lemma fresh_symbol (w : world) :
  heap (mkWorld (<[ fresh (dom (heap w)) := fill_symbol_init ]> (heap w)) (log w))
    !! fresh (dom (heap w))
  = Some (<[ "color" := int_list [115; 76; 0; 255] ]> fill_symbol_init).
Proof. cbn [heap]. by rewrite lookup_insert_eq, <- fill_symbol_init_color. Qed.

(** X1. When the rendering loop completes, what it has added to the log is
    exactly one draw per polygon, in the order of the feature list, each
    with that polygon's geometry, the table colour of its ['ToBreak'] and
    the popup made from it; with no polygon at all nothing is drawn and the
    symbol keeps its initial colour. *)
Theorem render_draws_in_order (str_format : value -> string)
    (service_area_fset : FeatureSet) (w w' : world) (fill_symbol : loc) :
  render_service_area str_format service_area_fset w = (Ok fill_symbol, w') ->
  exists draws,
    log w' = log w ++ draws /\
    Forall2 (rendered str_format fill_symbol) (features service_area_fset) draws /\
    draws_of Map1 draws
    = (fun f => ShapeGeometry (geometry f)) <$> features service_area_fset /\
    (features service_area_fset = [] ->
     draws = [] /\ heap w' = <[ fill_symbol := fill_symbol_init ]> (heap w)).
Proof.
  rewrite render_unfold. intros Hrun.
  destruct (for_eachM _ _ _ _) as [[[]|e] w2] eqn:Hloop; [|done].
  injection Hrun as <- <-.
  pose proof (cell18_ok_renderable _ _ _ _ _ Hloop) as Hall.
  destruct (cell18_trace str_format _ _ _ _ (fresh_symbol w) Hall)
    as (draws & c1 & Hrun & Hdraws & Hempty).
  rewrite Hloop in Hrun. injection Hrun as ->. cbn [log heap].
  exists draws. split; [done|]. split; [done|]. split.
  - by eapply draws_of_rendered.
  - intros Hnil. split.
    + rewrite Hnil in Hdraws. by inversion Hdraws.
    + rewrite (Hempty Hnil), insert_insert_eq.
      by rewrite <- fill_symbol_init_color.
Qed.

Lemma render_draws_in_order_witness :
  exists draws,
    log (render_service_area sample_format sample_areas empty_world).2
      = log empty_world ++ draws /\
    Forall2 (rendered sample_format 0%nat) (features sample_areas) draws /\
    draws_of Map1 draws
    = (fun f => ShapeGeometry (geometry f)) <$> features sample_areas /\
    (features sample_areas = [] ->
     draws = [] /\
     heap (render_service_area sample_format sample_areas empty_world).2
     = <[ 0%nat := fill_symbol_init ]> (heap empty_world)).
Proof.
  apply (render_draws_in_order sample_format sample_areas empty_world _ 0%nat).
  vm_compute. reflexivity.
Defined.

(** X2. The rendering loop completes exactly when every polygon of the set
    has a ['ToBreak'] attribute that is 5, 10 or 15. *)
Theorem render_completes_iff (str_format : value -> string)
    (service_area_fset : FeatureSet) (w : world) :
  (exists fill_symbol w',
     render_service_area str_format service_area_fset w = (Ok fill_symbol, w'))
  <-> Forall renderable (features service_area_fset).
Proof.
  rewrite render_unfold. split.
  - intros (l & w' & Hrun).
    destruct (for_eachM _ _ _ _) as [[[]|e] w2] eqn:Hloop; [|done].
    by eapply cell18_ok_renderable.
  - intros Hall.
    destruct (cell18_trace str_format _ _ _ _ (fresh_symbol w) Hall)
      as (draws & c1 & -> & _). by eexists _, _.
Qed.

(** X3. The loop stops at the first polygon it cannot colour: the polygons
    before it have been drawn and stay drawn, the exception is the one that
    polygon's turn raises, and no later polygon is drawn. *)
Theorem render_stops_at_first_bad (str_format : value -> string)
    (service_area_fset : FeatureSet) (good rest : list Feature) (bad : Feature)
    (w : world) :
  features service_area_fset = good ++ bad :: rest ->
  Forall renderable good ->
  ~ renderable bad ->
  exists e w' draws,
    render_service_area str_format service_area_fset w = (Raise e, w') /\
    log w' = log w ++ draws /\
    Forall2 (rendered str_format (fresh (dom (heap w)))) good draws /\
    (forall l w0, cell18_body str_format l tt bad w0 = (Raise e, w0)).
Proof.
  intros Hfeats Hgood Hbad.
  destruct (not_renderable_raises str_format bad Hbad) as [e He].
  destruct (cell18_trace str_format _ _ _ _ (fresh_symbol w) Hgood)
    as (draws & c1 & Hrun & Hdraws & _).
  exists e. eexists _, draws.
  rewrite render_unfold, Hfeats, for_eachM_app, Hrun.
  cbn [for_eachM]. unfold bindM. rewrite He. cbn [log]. done.
Qed.

Lemma render_stops_at_first_bad_witness :
  exists e w' draws,
    render_service_area sample_format
      (mkFeatureSet [sample_area (VInt 15); sample_area (VInt 7); sample_area (VInt 5)]
         VNone VNone) empty_world = (Raise e, w') /\
    log w' = log empty_world ++ draws /\
    Forall2 (rendered sample_format (fresh (dom (heap empty_world))))
      [sample_area (VInt 15)] draws /\
    (forall l w0,
       cell18_body sample_format l tt (sample_area (VInt 7)) w0 = (Raise e, w0)).
Proof.
  apply (render_stops_at_first_bad sample_format _ [sample_area (VInt 15)]
           [sample_area (VInt 5)] (sample_area (VInt 7)) empty_world).
  - reflexivity.
  - repeat constructor. exists (VInt 15). split; [reflexivity|].
    right. right. exists (inject_Z 15). split; reflexivity.
  - intros (tb & [= <-] & [H | [H | H]]);
      destruct H as (q & [= <-] & Hq); discriminate Hq.
Defined.

(** ** Unwrapping, entry by entry *)

Lemma getitem_ok_inv (p : value) (k : string) (v : value) :
  getitem p k = Ok v -> exists d, p = VDict d /\ d !! k = Some v.
Proof.
  destruct p; try done. cbn [getitem].
  destruct (d !! k) as [x|] eqn:Hk; [|done]. intros [= ->]. by exists d.
Qed.

Lemma same_feature_polygon (p : value) (f : Feature) :
  same_feature p f -> polygon_feature p.
Proof.
  intros [Hg Ha]. apply getitem_ok_inv in Hg as (d & -> & Hg).
  apply getitem_ok_inv in Ha as (d' & [= <-] & Ha). by exists d, (geometry f), (attributes f).
Qed.


Lemma not_polygon_raises (p : value) :
  ~ polygon_feature p -> exists e, forall acc, append_feature acc p = Raise e.
Proof.
  intros Hnot. unfold append_feature.
  destruct (getitem p "geometry") as [g|e] eqn:Hg; [|by exists e].
  destruct (getitem p "attributes") as [a|e] eqn:Ha; [|by exists e].
  exfalso. apply Hnot. by apply (same_feature_polygon p (mkFeature g a)).
Qed.





(** X5. An entry of ['features'] that is not a dictionary with
    ['geometry'] and ['attributes'] makes cell 15 raise, at the first such
    entry and with that entry's exception; no [FeatureSet] is built, even
    from the entries that were fine. The entries are read before
    ['geometryType'], so theirs is the exception seen. *)
Theorem unwrap_first_bad_entry (result : value) (d sa : gmap string value)
    (good rest : list value) (bad : value) :
  result = VDict d ->
  d !! "saPolygons" = Some (VDict sa) ->
  sa !! "features" = Some (VList (good ++ bad :: rest)) ->
  Forall polygon_feature good ->
  ~ polygon_feature bad ->
  exists e,
    single_solve_fset result = Raise e /\
    cell15 result = Raise e /\
    (forall acc, append_feature acc bad = Raise e).
Proof.
  intros -> Hsa Hfv Hgood Hbad.
  destruct (not_polygon_raises bad Hbad) as [e He].
  destruct (for_each_append_feature good [] Hgood) as (fs & Hfs & _).
  exists e.
  assert (H15 : cell15 (VDict d) = Raise e).
  { unfold cell15. cbn [getitem]. rewrite Hsa. cbn [Py.bind getitem].
    rewrite Hfv. cbn [Py.bind iter]. rewrite for_each_app, Hfs.
    cbn [for_each]. by rewrite He. }
  unfold single_solve_fset. by rewrite H15.
Qed.

Lemma unwrap_first_bad_entry_witness :
  exists e,
    single_solve_fset broken_response = Raise e /\
    cell15 broken_response = Raise e /\
    (forall acc, append_feature acc broken_polygon = Raise e).
Proof.
  eapply (unwrap_first_bad_entry broken_response _ _ [sample_polygon 5]
            [sample_polygon 10] broken_polygon).
  - reflexivity.
  - reflexivity.
  - reflexivity.
  - repeat constructor. eexists _, _, _. repeat split; reflexivity.
  - intros (d & g & a & [= <-] & _ & Ha). discriminate Ha.
Defined.

(** X6. The unwrapping reads three entries of ['saPolygons'] and nothing
    else: two responses that agree on ['features'], ['geometryType'] and
    ['spatialReference'] give the same result, whatever their
    ['messages'], ['fieldAliases'] or other entries hold. *)
Theorem unwrap_reads_only (d1 d2 sa1 sa2 : gmap string value) :
  d1 !! "saPolygons" = Some (VDict sa1) ->
  d2 !! "saPolygons" = Some (VDict sa2) ->
  sa1 !! "features" = sa2 !! "features" ->
  sa1 !! "geometryType" = sa2 !! "geometryType" ->
  sa1 !! "spatialReference" = sa2 !! "spatialReference" ->
  single_solve_fset (VDict d1) = single_solve_fset (VDict d2).
Proof.
  intros H1 H2 Hf Hg Hs. unfold single_solve_fset, cell15, cell16.
  cbn [getitem]. rewrite H1, H2. cbn [Py.bind getitem]. by rewrite Hf, Hg, Hs.
Qed.

Lemma unwrap_reads_only_witness :
  single_solve_fset sample_response = single_solve_fset bare_response.
Proof.
  unfold sample_response, bare_response.
  eapply unwrap_reads_only; reflexivity.
Defined.

(** ** The list of sets *)

Lemma map_res_first_failure {A B} (f : A -> res B) (good rest : list A) (bad : A)
    (e : exn) :
  Forall (fun x => is_ok (f x) = true) good ->
  f bad = Raise e ->
  map_res f (good ++ bad :: rest) = Raise e.
Proof.
  intros Hgood Hbad. induction Hgood as [|x good Hx _ IH]; simpl.
  - by rewrite Hbad.
  - destruct (f x); [|done]. by rewrite IH.
Qed.

(** X7. When the time-of-day unwrapping completes, [SD_fset_list] has one
    set per response, and its i-th set is the unwrapping of the i-th
    response: the order in which the solves were made is kept. *)
Theorem fset_list_in_order (sa_results : list value) (SD_fset_list : list FeatureSet) :
  cell_fset_list sa_results = Ok SD_fset_list ->
  length SD_fset_list = length sa_results /\
  (forall i result, sa_results !! i = Some result ->
     exists fs, SD_fset_list !! i = Some fs /\ single_solve_fset result = Ok fs).
Proof.
  unfold cell_fset_list. rewrite fset_list_loop.
  destruct (map_res single_solve_fset sa_results) as [l|] eqn:Hmap; [|done].
  cbn [Py.bind app]. intros [= <-]. apply map_res_Forall2 in Hmap. split.
  - symmetry. by eapply Forall2_length.
  - intros i r Hi. by eapply Forall2_lookup_l in Hmap as (fs & ? & ?); eauto.
Qed.

Lemma fset_list_in_order_witness :
  exists l,
    cell_fset_list [bare_response; sample_response] = Ok l /\
    length l = length [bare_response; sample_response] /\
    (forall i result, [bare_response; sample_response] !! i = Some result ->
       exists fs, l !! i = Some fs /\ single_solve_fset result = Ok fs).
Proof.
  eexists. split; [vm_compute; reflexivity|].
  apply (fset_list_in_order [bare_response; sample_response]).
  vm_compute. reflexivity.
Defined.

(** X8. One response that does not unwrap spoils the whole list: the cell
    raises the exception of the first such response, and [SD_fset_list]
    does not receive the sets of the responses that were fine. *)
Theorem fset_list_first_failure (good rest : list value) (bad : value) (e : exn) :
  Forall (fun result => is_ok (single_solve_fset result) = true) good ->
  single_solve_fset bad = Raise e ->
  cell_fset_list (good ++ bad :: rest) = Raise e.
Proof.
  intros Hgood Hbad. unfold cell_fset_list.
  by rewrite fset_list_loop, (map_res_first_failure _ _ _ _ e Hgood Hbad).
Qed.

Lemma fset_list_first_failure_witness :
  cell_fset_list ([sample_response] ++ broken_response :: [sample_response])
  = Raise (KeyError (VStr "attributes")).
Proof.
  apply fset_list_first_failure.
  - repeat constructor.
  - reflexivity.
Defined.

(** ** The travel-mode catalog *)

Lemma comprehension_ok_inv (ts selected : list value) :
  comprehension_if
    (fun t => (name <- getitem t "name";; Ok (eq_str name "Driving Time"))%R) ts
  = Ok selected ->
  Forall has_name ts /\ selected = List.filter is_driving_time ts.
Proof.
  revert selected. induction ts as [|t ts IH]; intros selected; cbn [comprehension_if].
  - intros [= <-]. by split.
  - destruct (getitem t "name") as [n|] eqn:Hn; [|done]. cbn [Py.bind].
    destruct (comprehension_if _ ts) as [ys|]; [|done].
    destruct (IH ys eq_refl) as [Hall ->]. intros [= <-]. split.
    + constructor; [by exists n | done].
    + assert (Ht : is_driving_time t = eq_str n "Driving Time")
        by (unfold is_driving_time; by rewrite Hn).
      cbn [List.filter]. by rewrite Ht.
Qed.

Lemma comprehension_first_error (before after : list value) (bad : value) (e : exn) :
  Forall has_name before ->
  getitem bad "name" = Raise e ->
  comprehension_if
    (fun t => (name <- getitem t "name";; Ok (eq_str name "Driving Time"))%R)
    (before ++ bad :: after)
  = Raise e.
Proof.
  intros Hbefore Hbad. induction Hbefore as [|t before [n Hn] _ IH]; simpl.
  - by rewrite Hbad.
  - by rewrite Hn, IH.
Qed.

Lemma filter_head_split (ts selected : list value) (t : value) :
  List.filter is_driving_time ts = t :: selected ->
  exists before after,
    ts = before ++ t :: after /\
    Forall (fun t' => ~ named "Driving Time" t') before /\
    named "Driving Time" t.
Proof.
  induction ts as [|x ts IH]; [done|]. cbn [List.filter].
  destruct (is_driving_time x) eqn:Hx.
  - intros [= -> _]. exists [], ts. repeat split; [constructor|].
    by apply is_driving_time_named.
  - intros Hsel. destruct (IH Hsel) as (before & after & -> & Hb & Ht).
    exists (x :: before), after. repeat split; [|done].
    constructor; [|done]. intros Hn. apply is_driving_time_named in Hn. congruence.
Qed.

Lemma iter_dict_head (fv p : value) (items : list value) :
  iter fv = Ok (p :: items) -> has_name p -> fv = VList (p :: items).
Proof.
  intros Hiter [n Hn]. apply getitem_ok_inv in Hn as (d & -> & _).
  destruct fv; cbn [iter] in Hiter; try done.
  - unfold chars in Hiter.
    destruct (String.list_ascii_of_string s); by injection Hiter.
  - by injection Hiter as ->.
  - destruct (map_to_list d0).*1; by injection Hiter.
Qed.

Lemma truck_mode_ok_inv (travel_modes t : value) :
  truck_mode_of travel_modes = Ok t ->
  exists d before after,
    travel_modes = VDict d /\
    d !! "supportedTravelModes" = Some (VList (before ++ t :: after)) /\
    named "Driving Time" t /\
    Forall (fun t' => ~ named "Driving Time" t') before /\
    Forall has_name (before ++ t :: after).
Proof.
  unfold truck_mode_of.
  destruct (getitem travel_modes "supportedTravelModes") as [mv|] eqn:Hmv; [|done].
  apply getitem_ok_inv in Hmv as (d & -> & Hmv). cbn [Py.bind].
  destruct (iter mv) as [ts|] eqn:Hiter; [|done]. cbn [Py.bind].
  destruct (comprehension_if _ ts) as [sel|] eqn:Hsel; [|done]. cbn [Py.bind].
  apply comprehension_ok_inv in Hsel as [Hnamed ->].
  unfold list_getitem. destruct (List.filter is_driving_time ts) as [|t0 sel] eqn:Hf; [done|].
  cbn. intros [= ->].
  destruct (filter_head_split _ _ _ Hf) as (before & after & -> & Hb & Ht).
  exists d, before, after. repeat split; try done.
  rewrite Hmv. f_equal.
  destruct before as [|b before]; cbn [app] in *.
  - apply iter_dict_head; [done|]. by apply Forall_cons in Hnamed as [? _].
  - apply iter_dict_head; [done|]. by apply Forall_cons in Hnamed as [? _].
Qed.

(** X9. Whatever cell 10 selects is an entry of the catalog's list named
    exactly ['Driving Time'], with no such entry before it, and every entry
    of the catalog then has a ['name']: the selection makes nothing up. *)
Theorem truck_mode_sound (travel_modes truck_mode : value) :
  truck_mode_of travel_modes = Ok truck_mode ->
  exists d before after,
    travel_modes = VDict d /\
    d !! "supportedTravelModes" = Some (VList (before ++ truck_mode :: after)) /\
    named "Driving Time" truck_mode /\
    Forall (fun t' => ~ named "Driving Time" t') before /\
    Forall has_name (before ++ truck_mode :: after).
Proof. apply truck_mode_ok_inv. Qed.

Lemma truck_mode_sound_witness :
  exists d before after,
    sample_catalog = VDict d /\
    d !! "supportedTravelModes"
    = Some (VList (before ++
        VDict (<[ "name" := VStr "Driving Time" ]> (<[ "id" := VInt 1 ]> ∅)) :: after)) /\
    named "Driving Time"
      (VDict (<[ "name" := VStr "Driving Time" ]> (<[ "id" := VInt 1 ]> ∅))) /\
    Forall (fun t' => ~ named "Driving Time" t') before /\
    Forall has_name (before ++
      VDict (<[ "name" := VStr "Driving Time" ]> (<[ "id" := VInt 1 ]> ∅)) :: after).
Proof.
  apply (truck_mode_sound sample_catalog). vm_compute. reflexivity.
Defined.

(** X10. The comprehension reads the ['name'] of every entry before [[0]]
    is taken: one entry without a name, anywhere in the catalog, makes the
    cell raise that entry's exception, even when a ['Driving Time'] mode
    stands before it. *)
Theorem truck_mode_unnamed_entry (travel_modes : value) (d : gmap string value)
    (before after : list value) (bad : value) (e : exn) :
  travel_modes = VDict d ->
  d !! "supportedTravelModes" = Some (VList (before ++ bad :: after)) ->
  Forall has_name before ->
  getitem bad "name" = Raise e ->
  truck_mode_of travel_modes = Raise e.
Proof.
  intros -> Hmodes Hbefore Hbad. unfold truck_mode_of.
  cbn [getitem]. rewrite Hmodes. cbn [Py.bind iter].
  by rewrite (comprehension_first_error _ _ _ e Hbefore Hbad).
Qed.

Lemma truck_mode_unnamed_entry_witness :
  truck_mode_of unnamed_catalog = Raise (KeyError (VStr "name")).
Proof.
  eapply (truck_mode_unnamed_entry unnamed_catalog _
            [VDict (<[ "name" := VStr "Driving Time" ]> ∅)] []
            (VDict (<[ "id" := VInt 7 ]> ∅))).
  - reflexivity.
  - reflexivity.
  - repeat constructor. by eexists.
  - reflexivity.
Defined.

Lemma names_of (ts : list value) :
  Forall has_name ts ->
  exists names, Forall2 (fun t name => getitem t "name" = Ok name) ts names.
Proof.
  induction 1 as [|t ts [n Hn] _ [names IH]]; [by exists []|].
  exists (n :: names). by constructor.
Qed.

Lemma cell11_loop (ts names : list value) :
  Forall2 (fun t name => getitem t "name" = Ok name) ts names ->
  forall w,
    for_eachM cell11_body ts tt w
    = (Ok tt, mkWorld (heap w) (log w ++ (EvPrint <$> names))).
Proof.
  induction 1 as [|t n ts names Hn _ IH]; intros w.
  - simpl. unfold ret. rewrite app_nil_r. by destruct w.
  - cbn [for_eachM]. unfold bindM at 1. unfold cell11_body at 1.
    unfold bindM, lift, print, emit. rewrite Hn, IH. cbn [heap log].
    by rewrite fmap_cons, <- app_assoc.
Qed.

(** X11. Once cell 10 has selected a mode, cell 11 cannot fail: it prints
    the ['name'] of every entry of the catalog, in catalog order, and
    ['Driving Time'] is among the lines printed. *)
Theorem names_printed_after_selection (travel_modes truck_mode : value) (w : world) :
  truck_mode_of travel_modes = Ok truck_mode ->
  exists modes names,
    getitem travel_modes "supportedTravelModes" = Ok (VList modes) /\
    Forall2 (fun t name => getitem t "name" = Ok name) modes names /\
    cell11 travel_modes w
    = (Ok tt, mkWorld (heap w) (log w ++ (EvPrint <$> names))) /\
    VStr "Driving Time" ∈ names.
Proof.
  intros Hsel.
  destruct (truck_mode_ok_inv _ _ Hsel) as (d & before & after & -> & Hm & Ht & _ & Hall).
  destruct (names_of _ Hall) as [names Hnames].
  exists (before ++ truck_mode :: after), names.
  split; [cbn [getitem]; by rewrite Hm|]. split; [done|]. split.
  - unfold cell11, bindM at 1 2, lift. cbn [getitem]. rewrite Hm. cbn [iter].
    by apply cell11_loop.
  - apply Forall2_app_inv_l in Hnames as (n1 & n2 & _ & Hn2 & ->).
    inversion Hn2 as [|? n ? ? Hn]; subst.
    unfold named in Ht. rewrite Ht in Hn. injection Hn as <-.
    apply elem_of_app. right. apply elem_of_cons. by left.
Qed.

Lemma names_printed_after_selection_witness :
  exists modes names,
    getitem sample_catalog "supportedTravelModes" = Ok (VList modes) /\
    Forall2 (fun t name => getitem t "name" = Ok name) modes names /\
    cell11 sample_catalog empty_world
    = (Ok tt, mkWorld (heap empty_world) (log empty_world ++ (EvPrint <$> names))) /\
    VStr "Driving Time" ∈ names.
Proof.
  apply (names_printed_after_selection sample_catalog
           (VDict (<[ "name" := VStr "Driving Time" ]> (<[ "id" := VInt 1 ]> ∅)))
           empty_world).
  vm_compute. reflexivity.
Defined.

(** X12. On its own, cell 11 prints as far as it gets: the names of the
    entries before the first one without a ['name'], then that entry's
    exception; the lines already printed stay printed. *)
Theorem names_printed_until_unnamed (travel_modes : value) (d : gmap string value)
    (before after names : list value) (bad : value) (e : exn) (w : world) :
  travel_modes = VDict d ->
  d !! "supportedTravelModes" = Some (VList (before ++ bad :: after)) ->
  Forall2 (fun t name => getitem t "name" = Ok name) before names ->
  getitem bad "name" = Raise e ->
  cell11 travel_modes w
  = (Raise e, mkWorld (heap w) (log w ++ (EvPrint <$> names))).
Proof.
  intros -> Hm Hbefore Hbad.
  unfold cell11, bindM at 1 2, lift. cbn [getitem]. rewrite Hm. cbn [iter].
  rewrite for_eachM_app, (cell11_loop _ _ Hbefore). cbn [for_eachM].
  unfold bindM at 1. unfold cell11_body, bindM, lift. by rewrite Hbad.
Qed.

Lemma names_printed_until_unnamed_witness :
  cell11 unnamed_catalog empty_world
  = (Raise (KeyError (VStr "name")),
     mkWorld (heap empty_world) (log empty_world ++ (EvPrint <$> [VStr "Driving Time"]))).
Proof.
  eapply (names_printed_until_unnamed unnamed_catalog _
            [VDict (<[ "name" := VStr "Driving Time" ]> ∅)] []
            [VStr "Driving Time"] (VDict (<[ "id" := VInt 7 ]> ∅))).
  - reflexivity.
  - reflexivity.
  - repeat constructor.
  - reflexivity.
Defined.

(** ** The animation, beyond five sets and at its end *)

Lemma animation_inner_overrun (labels : list value) (fsets : list FeatureSet) :
  forall (j : nat) (w : world),
    (j <= length labels)%nat ->
    (length labels < j + length fsets)%nat ->
    for_eachM (animation_inner labels) fsets j w
    = (Raise IndexError,
       mkWorld (heap w)
         (log w ++ concat (zip_with frame_events (drop j labels) fsets))).
Proof.
  induction fsets as [|fs fsets IH]; intros j w Hj Hover; simpl in Hover; [lia|].
  destruct (decide (j < length labels)%nat) as [Hlt|Hge].
  - destruct (lookup_lt_is_Some_2 labels j Hlt) as [label Hlabel].
    rewrite (drop_S _ _ _ Hlabel). simpl.
    unfold bindM at 1. unfold animation_inner at 1.
    unfold bindM, lift, list_getitem, print, draw, sleep, emit, ret. rewrite Hlabel.
    cbn [log heap fmap option_fmap option_map].
    rewrite (IH (j + 1)%nat); [|lia|lia]. cbn [log heap].
    rewrite Nat.add_1_r, <- !app_assoc. simpl. done.
  - rewrite drop_ge by lia. cbn [zip_with concat for_eachM].
    unfold bindM at 1. unfold animation_inner, bindM, lift, list_getitem.
    rewrite (lookup_ge_None_2 labels j) by lia. rewrite app_nil_r. by destruct w.
Qed.

Lemma cell_animation_overrun (fsets : list FeatureSet) (w : world) :
  (length time_labels < length fsets)%nat ->
  cell_animation fsets w
  = (Raise IndexError,
     mkWorld (heap w) (log w ++ [EvClear Map2; EvSleep 2] ++ pass_events fsets)).
Proof.
  intros Hlen. unfold cell_animation, bindM at 1 2, clear_graphics, sleep, emit.
  cbn [log heap seq for_eachM]. unfold bindM at 1.
  unfold animation_pass at 1. unfold bindM at 1 2, clear_graphics, emit.
  rewrite animation_inner_overrun; [|lia|by cbn [log heap]].
  cbn [log heap drop]. unfold pass_events. by rewrite <- !app_assoc.
Qed.

Lemma draws_of_frames_take (labels : list value) (fsets : list FeatureSet) :
  draws_of Map2 (concat (zip_with frame_events labels fsets))
  = ShapeFeatureSet <$> take (length labels) fsets.
Proof.
  revert fsets. induction labels as [|lab labels IH]; intros [|fs fsets]; try done.
  cbn [zip_with concat length take fmap list_fmap].
  change (ShapeFeatureSet fs :: draws_of Map2 (concat (zip_with frame_events labels fsets))
          = ShapeFeatureSet fs :: (ShapeFeatureSet <$> take (length labels) fsets)).
  f_equal. apply IH.
Qed.

(** X13. With more sets than the five labels the animation does not get
    through its first pass: after the opening clear and pause it clears
    once more, shows the first five sets with their labels, and raises
    [IndexError] on the sixth label; the second and third pass never run. *)
Theorem animation_too_many_sets (SD_fset_list : list FeatureSet) (w : world) :
  (length time_labels < length SD_fset_list)%nat ->
  cell_animation SD_fset_list w
  = (Raise IndexError,
     mkWorld (heap w)
       (log w ++ [EvClear Map2; EvSleep 2] ++ pass_events SD_fset_list)) /\
  draws_of Map2 (pass_events SD_fset_list)
  = ShapeFeatureSet <$> take (length time_labels) SD_fset_list.
Proof.
  intros Hlen. split; [by apply cell_animation_overrun|].
  unfold pass_events.
  change (draws_of Map2 (concat (zip_with frame_events time_labels SD_fset_list))
          = ShapeFeatureSet <$> take (length time_labels) SD_fset_list).
  apply draws_of_frames_take.
Qed.

Lemma animation_too_many_sets_witness :
  cell_animation six_sets empty_world
  = (Raise IndexError,
     mkWorld (heap empty_world)
       (log empty_world ++ [EvClear Map2; EvSleep 2] ++ pass_events six_sets)) /\
  draws_of Map2 (pass_events six_sets)
  = ShapeFeatureSet <$> take (length time_labels) six_sets.
Proof.
  apply (animation_too_many_sets six_sets empty_world). simpl. lia.
Defined.

Lemma fold_frames (labels : list value) (fsets : list FeatureSet) :
  forall shown,
    (length fsets <= length labels)%nat ->
    fold_left (widget_step Map2) (concat (zip_with frame_events labels fsets)) shown
    = shown ++ (ShapeFeatureSet <$> fsets).
Proof.
  revert labels. induction fsets as [|fs fsets IH]; intros [|lab labels] shown Hlen;
    simpl in *; try lia; try by rewrite app_nil_r.
  rewrite IH by lia. by rewrite <- app_assoc.
Qed.

Lemma fold_pass (fsets : list FeatureSet) (shown : list shape) :
  (length fsets <= length time_labels)%nat ->
  fold_left (widget_step Map2) (pass_events fsets) shown = ShapeFeatureSet <$> fsets.
Proof.
  intros Hlen. unfold pass_events.
  change (fold_left (widget_step Map2)
            (concat (zip_with frame_events time_labels fsets)) []
          = ShapeFeatureSet <$> fsets).
  by rewrite fold_frames.
Qed.

Lemma slept_app (xs ys : list event) : slept (xs ++ ys) = slept xs + slept ys.
Proof.
  induction xs as [|x xs IH]; [done|]. simpl. rewrite IH. destruct x; lia.
Qed.

Lemma slept_frames (labels : list value) (fsets : list FeatureSet) :
  (length fsets <= length labels)%nat ->
  slept (concat (zip_with frame_events labels fsets)) = Z.of_nat (length fsets).
Proof.
  revert labels. induction fsets as [|fs fsets IH]; intros [|lab labels] Hlen;
    simpl in *; try lia.
  rewrite IH by lia. lia.
Qed.

Lemma slept_pass (fsets : list FeatureSet) :
  (length fsets <= length time_labels)%nat ->
  slept (pass_events fsets) = Z.of_nat (length fsets).
Proof.
  intros Hlen. unfold pass_events.
  change (slept (concat (zip_with frame_events time_labels fsets))
          = Z.of_nat (length fsets)).
  by apply slept_frames.
Qed.

(** X14. If the animation runs to its end there were at most five sets;
    [map2] is then left showing the whole list once, in order, and the
    cell has slept two seconds plus three seconds per set. *)
Theorem animation_final_view (SD_fset_list : list FeatureSet) (w w' : world) :
  cell_animation SD_fset_list w = (Ok tt, w') ->
  (length SD_fset_list <= length time_labels)%nat /\
  graphics_of Map2 (log w') = ShapeFeatureSet <$> SD_fset_list /\
  slept (log w') = slept (log w) + 2 + 3 * Z.of_nat (length SD_fset_list).
Proof.
  intros Hrun.
  destruct (le_lt_dec (length SD_fset_list) (length time_labels)) as [Hle|Hgt].
  - rewrite cell_animation_run in Hrun by done. injection Hrun as <-.
    cbn [log]. split; [done|]. unfold animation_events. cbn [replicate concat]. split.
    + unfold graphics_of. rewrite !app_assoc, app_nil_r, fold_left_app.
      by apply fold_pass.
    + rewrite !slept_app, !slept_pass by done. simpl. lia.
  - by rewrite cell_animation_overrun in Hrun.
Qed.

Lemma animation_final_view_witness :
  (length [sample_areas; sample_areas] <= length time_labels)%nat /\
  graphics_of Map2 (log (cell_animation [sample_areas; sample_areas] empty_world).2)
  = ShapeFeatureSet <$> [sample_areas; sample_areas] /\
  slept (log (cell_animation [sample_areas; sample_areas] empty_world).2)
  = slept (log empty_world) + 2 + 3 * Z.of_nat (length [sample_areas; sample_areas]).
Proof.
  apply (animation_final_view [sample_areas; sample_areas] empty_world).
  vm_compute. reflexivity.
Defined.

(** ** The time-of-day cells when something goes wrong *)

Lemma solve_calls_pass (fsets : list FeatureSet) : solve_calls (pass_events fsets) = [].
Proof.
  unfold pass_events.
  change (solve_calls (concat (zip_with frame_events time_labels fsets)) = []).
  apply solve_calls_frames.
Qed.

(** X15. In every run of the time-of-day cells, whatever its outcome, the
    solve calls are made first, one per sample, and no other solve call
    follows; the heap is untouched. If some response does not unwrap, the
    run raises that exception right after the last solve: [map2] is
    neither cleared nor drawn on. *)
Theorem solves_come_first (solver : list event -> sa_request -> value)
    (fset : FeatureSet) (times : list value) (w : world) :
  exists responses rest,
    length responses = length times /\
    log (time_of_day_workflow solver fset times w).2
    = log w ++ solve_events fset times responses ++ rest /\
    solve_calls (solve_events fset times responses ++ rest)
    = time_request fset <$> times /\
    heap (time_of_day_workflow solver fset times w).2 = heap w /\
    (forall e, cell_fset_list responses = Raise e ->
       (time_of_day_workflow solver fset times w).1 = Raise e /\ rest = []).
Proof.
  destruct (solve_loop solver fset times [] w) as (responses & Hlen & _ & Hsolve).
  exists responses.
  set (w1 := mkWorld (heap w) (log w ++ solve_events fset times responses)) in *.
  assert (Hrun : time_of_day_workflow solver fset times w
                 = match cell_fset_list responses with
                   | Ok fsets =>
                       match cell_animation fsets w1 with
                       | (Ok _, w2) => (Ok fsets, w2)
                       | (Raise e, w2) => (Raise e, w2)
                       end
                   | Raise e => (Raise e, w1)
                   end).
  { unfold time_of_day_workflow, bindM, cell_solve_times, lift, ret.
    rewrite Hsolve. cbn [app]. destruct (cell_fset_list responses); [|done].
    by destruct (cell_animation _ _) as [[[]|] ?]. }
  rewrite Hrun. clear Hrun.
  destruct (cell_fset_list responses) as [fsets|e0] eqn:Hunwrap.
  - destruct (le_lt_dec (length fsets) (length time_labels)) as [Hle|Hgt].
    + exists (animation_events fsets). rewrite cell_animation_run by done.
      unfold w1. cbn [log heap fst snd]. rewrite <- app_assoc.
      rewrite solve_calls_app, solve_calls_animation, app_nil_r.
      repeat split; try done. by apply solve_calls_solve_events.
    + exists ([EvClear Map2; EvSleep 2] ++ pass_events fsets).
      rewrite cell_animation_overrun by done. unfold w1. cbn [log heap fst snd].
      rewrite <- app_assoc.
      rewrite !solve_calls_app, solve_calls_pass, !app_nil_r.
      repeat split; try done. by apply solve_calls_solve_events.
  - exists []. unfold w1. cbn [log heap fst snd]. rewrite !app_nil_r.
    repeat split; try done. by apply solve_calls_solve_events.
Qed.

(** ** The facility *)

(** X16. When cell 6 completes it has taken the first candidate of the
    geocoder's list, whatever follows it, and that candidate has a
    ['location']; cell 7 then cannot fail, and its [FeatureSet] holds
    exactly one point feature, with that location as geometry. *)
Theorem facility_from_top_candidate (geocode_service : list event -> string -> list value)
    (w w' : world) (sd_geocode shown : value) :
  cell6 geocode_service w = (Ok (sd_geocode, shown), w') ->
  exists rest fset,
    geocode_service (log w) "San Diego Convention Center" = sd_geocode :: rest /\
    w' = mkWorld (heap w)
           (log w ++ [EvGeocode "San Diego Convention Center" (sd_geocode :: rest)]) /\
    getitem sd_geocode "location" = Ok shown /\
    cell7 sd_geocode = Ok fset /\
    geometry <$> features fset = [shown] /\
    geometry_type fset = VStr "esriGeometryPoint".
Proof.
  unfold cell6, bindM, geocode, lift, list_getitem, ret.
  destruct (geocode_service (log w) "San Diego Convention Center") as [|c rest] eqn:Hc;
    [done|]. cbn [lookup list_lookup].
  destruct (getitem c "location") as [loc0|] eqn:Hloc; [|done].
  intros [= <- <- <-]. exists rest. eexists. repeat split; try done.
  - unfold cell7. rewrite Hloc. reflexivity.
  - reflexivity.
  - reflexivity.
Qed.

Lemma facility_from_top_candidate_witness :
  exists rest fset,
    sample_geocoder (log empty_world) "San Diego Convention Center"
    = sample_candidate :: rest /\
    (cell6 sample_geocoder empty_world).2
    = mkWorld (heap empty_world)
        (log empty_world
         ++ [EvGeocode "San Diego Convention Center" (sample_candidate :: rest)]) /\
    getitem sample_candidate "location"
    = Ok (VDict (<[ "x" := VInt (-117) ]> (<[ "y" := VInt 32 ]> ∅))) /\
    cell7 sample_candidate = Ok fset /\
    geometry <$> features fset
    = [VDict (<[ "x" := VInt (-117) ]> (<[ "y" := VInt 32 ]> ∅))] /\
    geometry_type fset = VStr "esriGeometryPoint".
Proof.
  apply (facility_from_top_candidate sample_geocoder empty_world).
  vm_compute. reflexivity.
Defined.

(** ** From the response to the map *)

Lemma single_solve_shape (result : value) (polys : list value) (gt sr : value) :
  sa_response result polys gt sr ->
  exists fs,
    single_solve_fset result = Ok (mkFeatureSet fs gt sr) /\
    Forall2 same_feature polys fs.
Proof.
  intros (d & sa & -> & Hsa & Hfeat & Hgt & Hsr & Hpolys).
  destruct (for_each_append_feature polys [] Hpolys) as (fs & Hloop & Hall).
  exists fs. split; [|done].
  unfold single_solve_fset, cell15, cell16.
  cbn [getitem Py.bind iter]. rewrite Hsa. cbn [getitem Py.bind iter].
  rewrite Hfeat. cbn [getitem Py.bind iter]. by rewrite Hloop, Hgt, Hsr.
Qed.

Lemma renderable_features (polys : list value) (fs : list Feature) :
  Forall2 same_feature polys fs ->
  Forall renderable_entry polys ->
  Forall renderable fs /\
  Forall2 shows_entry polys ((fun f => ShapeGeometry (geometry f)) <$> fs).
Proof.
  induction 1 as [|p f polys fs [Hg Ha] _ IH]; intros Hall.
  - split; constructor.
  - apply Forall_cons in Hall as [(a & tb & Ha' & Htb & Hin) Hall].
    destruct (IH Hall) as [IH1 IH2]. split.
    + constructor; [|done]. exists tb. split; [|done]. congruence.
    + rewrite fmap_cons. constructor; [|done]. by exists (geometry f).
Qed.

(** X17. Cells 15 to 18 end to end: for a well-formed response whose
    polygons all have a ['ToBreak'] of 5, 10 or 15, the four cells
    complete, and what they put on [map1] is the geometry of each response
    polygon, once each and in the order of the response. *)
Theorem response_on_the_map (str_format : value -> string) (result : value)
    (polys : list value) (gt sr : value) (w : world) :
  sa_response result polys gt sr ->
  Forall renderable_entry polys ->
  exists fill_symbol w' draws,
    cells_15_to_18 str_format result w = (Ok fill_symbol, w') /\
    log w' = log w ++ draws /\
    length draws = length polys /\
    Forall2 shows_entry polys (draws_of Map1 draws).
Proof.
  intros Hresp Hall.
  destruct (single_solve_shape _ _ _ _ Hresp) as (fs & Hfs & Hsame).
  destruct (renderable_features _ _ Hsame Hall) as [Hrend Hshow].
  destruct (cell18_trace str_format _ fs _ _ (fresh_symbol w) Hrend)
    as (draws & c1 & Hrun & Hdraws & _).
  exists (fresh (dom (heap w))). eexists _, draws.
  unfold cells_15_to_18, bindM, lift. rewrite Hfs, render_unfold.
  cbn [features]. rewrite Hrun. cbn [log]. repeat split.
  - rewrite <- (Forall2_length _ _ _ Hdraws). symmetry. by eapply Forall2_length.
  - by rewrite (draws_of_rendered _ _ _ _ Hdraws).
Qed.

Lemma response_on_the_map_witness :
  exists fill_symbol w' draws,
    cells_15_to_18 sample_format sample_response empty_world = (Ok fill_symbol, w') /\
    log w' = log empty_world ++ draws /\
    length draws = length sample_polygons /\
    Forall2 shows_entry sample_polygons (draws_of Map1 draws).
Proof.
  apply (response_on_the_map sample_format sample_response sample_polygons
           (VStr "esriGeometryPolygon") (VDict (<[ "wkid" := VInt 4326 ]> ∅))).
  - apply sample_response_shape.
  - unfold sample_polygons. repeat constructor.
    + eexists _, (VInt 15). repeat split; try reflexivity.
      right. right. exists (inject_Z 15). split; reflexivity.
    + eexists _, (VInt 10). repeat split; try reflexivity.
      right. left. exists (inject_Z 10). split; reflexivity.
    + eexists _, (VInt 5). repeat split; try reflexivity.
      left. exists (inject_Z 5). split; reflexivity.
Defined.

Lemma notebook_time_of_day_witness :
  time_of_day_outcome sample_solver sample_facilities (day_times sample_timestamp)
    empty_world.
Proof.
  apply (notebook_time_of_day sample_solver sample_timestamp sample_facilities empty_world).
  intros h req. reflexivity.
Defined.

Lemma notebook_fset_list_length_witness :
  exists sa_results w1 SD_fset_list,
    cell_solve_times sample_solver sample_facilities (day_times sample_timestamp)
      empty_world = (Ok sa_results, w1) /\
    cell_fset_list sa_results = Ok SD_fset_list /\
    length SD_fset_list = length time_labels.
Proof.
  eexists _, _, _. split; [vm_compute; reflexivity|]. split; [vm_compute; reflexivity|].
  eapply (notebook_fset_list_length sample_solver sample_timestamp sample_facilities
            empty_world); vm_compute; reflexivity.
Defined.
